(** * BLACS plugins: callback wrapper, callback dispatcher, plugin registry

  A shallow embedding of [plugins/__init__.py]:

  - [Callback], [callback] and the descriptor method [Callback.__get__];
  - [get_callbacks], the dispatcher that walks [BLACS.plugins] and sorts
    the collected entries by priority;
  - the module-level discovery loop that registers new plugin directories
    in the [BLACS/plugins] section of the lab configuration and imports the
    activated ones.

  Python objects are modelled by inductive types, dictionaries with string
  keys by [gmap string], exceptions by sums [exn + A], and the module's
  globals ([exp_config], [modules], the logger) by an explicit state record
  that is threaded through the operations. *)

From Stdlib Require Import ZArith Lia Ascii String.
From stdpp Require Import gmap strings list fin_maps sorting.

Local Open Scope string_scope.
Local Open Scope Z_scope.
Local Open Scope list_scope.

(** ** Python exceptions and the try/except idiom *)

(** Instances of Python's [Exception] class: what [except Exception] catches.
    The first four are the ones the configuration store raises; [Exception]
    stands for every other class. Interrupts and interpreter exits, which
    derive from [BaseException] alone, are not modelled. *)
Inductive exn : Type :=
| NoSectionError (section : string)
| DuplicateSectionError (section : string)
| NoOptionError (option section : string)
| ValueError (msg : string)
| ImportError (msg : string)
| KeyError (key : string)
| Exception (cls msg : string).

(** A computation that either raises or returns. *)
Abbreviation result A := (exn + A)%type.

(** One record emitted by [logger.exception]: level ERROR, the formatted
  message, and the exception being handled. *)
Record log_record : Type := LogRecord {
  levelname : string;
  message : string;
  exc_info : exn
}.

Definition DEFAULT_PRIORITY : Z := 10.

(** ** [list.sort(key=...)]

  Python's sort is stable and ascending in the key.  It is embedded as a
  stable insertion sort: an element is placed in front of the first element
  of the already sorted tail whose key is not smaller. *)
Section Sort.
Context {A : Type} (key : A → Z).

Fixpoint insert_by_key (x : A) (l : list A) : list A :=
  match l with
  | [] => [x]
  | y :: l' => if key x <=? key y then x :: y :: l' else y :: insert_by_key x l'
  end.

Fixpoint list_sort (l : list A) : list A :=
  match l with
  | [] => []
  | x :: l' => insert_by_key x (list_sort l')
  end.
End Sort.

(** ** Callables, [Callback] and [callback] *)
Section Callables.
(** [value]: Python values passed as arguments and returned by calls;
    [World]: whatever state a callable may read and change. *)
Context {value World : Type}.

(** A Python function body: positional arguments, keyword arguments and the
    world in; an outcome (raise or return) and the new world out. *)
Definition pyfunc : Type :=
  list value → list (string * value) → World → result value * World.

(** The callables that can be stored under an event name. A plain function
    may carry a [priority] attribute of its own or none; a bound method
    (what [MethodType] builds) pairs a callable with an instance. *)
Inductive callable : Type :=
  | PyFunction (f : pyfunc) (priority_attr : option Z)
  | MethodType (f : callable) (instance : value)
  | CallbackObject (c : Callback)
with Callback : Type :=
  | mkCallback (priority : Z) (func : callable).

Definition priority (self : Callback) : Z :=
  match self with mkCallback p _ => p end.
Definition func (self : Callback) : callable :=
  match self with mkCallback _ f => f end.

(** [Callback.__init__(self, func, priority=DEFAULT_PRIORITY)]; an omitted
    keyword argument is [None]. *)
Definition Callback__init__ (func : callable) (priority : option Z) : Callback :=
  mkCallback (default DEFAULT_PRIORITY priority) func.

(** [Callback.__get__(self, instance, class_)]: [instance] is Python's
    [None] when the attribute is read on the class. *)
Definition Callback__get__ (self : Callback) (instance : option value)
    (class_ : value) : callable :=
  match instance with
  | None => CallbackObject self
  | Some i => MethodType (CallbackObject self) i
  end.

(** The descriptor of an ordinary function defined in a class body, for
    comparison: reading it on an instance builds a bound method. *)
Definition function__get__ (f : callable) (instance : option value)
    (class_ : value) : callable :=
  match instance with
  | None => f
  | Some i => MethodType f i
  end.

(** Calling an object. A bound method prepends its instance to the
    positional arguments; [Callback.__call__] forwards to [self.func]. *)
Fixpoint call (c : callable) (args : list value) (kwargs : list (string * value))
    (w : World) : result value * World :=
  match c with
  | PyFunction f _ => f args kwargs w
  | MethodType f i => call f (i :: args) kwargs w
  | CallbackObject cb => Callback__call__ cb args kwargs w
  end
with Callback__call__ (self : Callback) (args : list value)
    (kwargs : list (string * value)) (w : World) : result value * World :=
  match self with
  | mkCallback _ f => call f args kwargs w
  end.

(** The decorator class [callback]. *)
Record callback : Type := mk_callback { decorator_priority : Z }.

Definition callback__init__ (priority : option Z) : callback :=
  {| decorator_priority := default DEFAULT_PRIORITY priority |}.

Definition callback__call__ (self : callback) (func : callable) : Callback :=
  Callback__init__ func (Some (decorator_priority self)).

(** [getattr(c, 'priority')]: [None] stands for AttributeError. A bound
    method forwards attribute reads to the callable it wraps. *)
Fixpoint getattr_priority (c : callable) : option Z :=
  match c with
  | PyFunction _ a => a
  | MethodType f _ => getattr_priority f
  | CallbackObject cb => Some (priority cb)
  end.

(** The sort key of the dispatcher:
    [lambda callback: getattr(callback, 'priority', DEFAULT_PRIORITY)]. *)
Definition priority_key (c : callable) : Z :=
  default DEFAULT_PRIORITY (getattr_priority c).
End Callables.

Arguments callable : clear implicits.
Arguments Callback : clear implicits.
Arguments pyfunc : clear implicits.

(** ** The module's globals and the monad of its code *)

(** A call made on the configuration store. *)
Inductive config_call : Type :=
| CallHasSection (section : string)
| CallAddSection (section : string)
| CallItems (section : string)
| CallSet (section option value : string)
| CallGetBoolean (section option : string).

(** The section a call names. *)
Definition call_section (c : config_call) : string :=
  match c with
  | CallHasSection s | CallAddSection s | CallItems s
  | CallSet s _ _ | CallGetBoolean s _ => s
  end.

(** The calls that change the store. *)
Definition is_write (c : config_call) : bool :=
  match c with
  | CallAddSection _ | CallSet _ _ _ => true
  | _ => false
  end.

Section State.
Context {PyModule : Type}.

(** [exp_config] is the lab configuration (section name to option name to
    string value) and [config_calls] the calls made on it, in order;
    [modules] is the result mapping of the discovery loop, [import_calls]
    the names [importlib.import_module] was called with, in order, and
    [logger] the records emitted on the [BLACS.plugins] logger. *)
Record module_state : Type := ModuleState {
  exp_config : gmap string (gmap string string);
  config_calls : list config_call;
  modules : gmap string PyModule;
  import_calls : list string;
  logger : list log_record
}.

(** The state after the records [rs] have been logged. *)
Definition logged (rs : list log_record) (st : module_state) : module_state :=
  {| exp_config := exp_config st;
     config_calls := config_calls st;
     modules := modules st;
     import_calls := import_calls st;
     logger := logger st ++ rs |}.

(** The state after the calls [cs] have been made on the store, leaving it
    as [cfg]. *)
Definition configured (cfg : gmap string (gmap string string)) (cs : list config_call)
    (st : module_state) : module_state :=
  {| exp_config := cfg;
     config_calls := config_calls st ++ cs;
     modules := modules st;
     import_calls := import_calls st;
     logger := logger st |}.

(** The state after [importlib.import_module] has been called with [names]. *)
Definition imported (names : list string) (st : module_state) : module_state :=
  {| exp_config := exp_config st;
     config_calls := config_calls st;
     modules := modules st;
     import_calls := import_calls st ++ names;
     logger := logger st |}.

(** The state with [modules] replaced. *)
Definition with_modules (ms : gmap string PyModule) (st : module_state) : module_state :=
  {| exp_config := exp_config st;
     config_calls := config_calls st;
     modules := ms;
     import_calls := import_calls st;
     logger := logger st |}.

(** Code of the module reads and changes the globals and either raises or
    returns; what it changed before raising stays changed. *)
Definition M (A : Type) : Type := module_state → result A * module_state.

Definition ret {A} (a : A) : M A := λ st, (inr a, st).

Definition bind {A B} (m : M A) (k : A → M B) : M B := λ st,
  match m st with
  | (inl e, st') => (inl e, st')
  | (inr a, st') => k a st'
  end.

(** A pure fallible computation, run inside the module. *)
Definition lift {A} (r : result A) : M A := λ st, (r, st).

(** [try: body except Exception as e: handler e]. *)
Definition try_catch {A} (body : M A) (handler : exn → M A) : M A := λ st,
  match body st with
  | (inl e, st') => handler e st'
  | (inr a, st') => (inr a, st')
  end.

(** [try: body except Exception as e: handler e else: orelse]: the handler
    does not cover [orelse]. *)
Definition try_catch_else {A B} (body : M A) (handler : exn → M B) (orelse : A → M B)
    : M B := λ st,
  match body st with
  | (inl e, st') => handler e st'
  | (inr a, st') => orelse a st'
  end.

(** A [for] loop that updates the local variable [a]. *)
Fixpoint foldM {A B} (body : A → B → M A) (a : A) (l : list B) : M A :=
  match l with
  | [] => ret a
  | x :: l' => bind (body a x) (λ a', foldM body a' l')
  end.

(** [logger.exception(msg)] inside an [except] clause handling [e]. *)
Definition logger_exception (msg : string) (e : exn) : M unit := λ st,
  (inr (), logged [LogRecord "ERROR" msg e] st).
End State.

Arguments module_state : clear implicits.
Arguments M : clear implicits.

Notation "'do' x <- m ; k" := (bind m (λ x, k))
  (at level 10, x name, m at level 100, k at level 200,
   format "'[v' 'do'  x  <-  m ; '/' k ']'").
Notation "m ;; k" := (bind m (λ _, k))
  (at level 100, k at level 200, right associativity).

(** ** The dispatcher [get_callbacks] *)
Section Dispatcher.
Context {value World PyModule : Type}.

Abbreviation callable := (callable value World).
Abbreviation M := (M PyModule).

(** A plugin instance as the dispatcher sees it: [str(plugin)], which is
    taken to return as it does for [BasePlugin], and the outcome of
    [plugin.get_callbacks()], which raises, returns [None], or returns a
    dictionary. *)
Record plugin : Type := Plugin {
  plugin_str : string;
  plugin_get_callbacks : result (option (gmap string callable))
}.

(** [BasePlugin.get_callbacks]: the empty dictionary. *)
Definition BasePlugin_get_callbacks : result (option (gmap string callable)) :=
  inr (Some ∅).

(** [__main__.app]: its [plugins] dictionary, in iteration order. *)
Record App : Type := { plugins : list (string * plugin) }.

(** [BLACS.plugins.values()]. *)
Definition plugins_values (BLACS : App) : list plugin := (plugins BLACS).*2.

(** [name in d] and [d[name]] on a dictionary. *)
Definition dict_contains {V} (d : gmap string V) (name : string) : bool :=
  bool_decide (is_Some (d !! name)).

Definition dict_getitem {V} (d : gmap string V) (name : string) : result V :=
  match d !! name with
  | Some v => inr v
  | None => inl (KeyError name)
  end.

(** One iteration of [for plugin in BLACS.plugins.values()]: the [try]
    block and its handler. [callbacks.append] is the last statement of the
    block, so a raise leaves [callbacks] as it was. *)
Definition visit (name : string) (callbacks : list callable) (plugin : plugin)
    : M (list callable) :=
  try_catch
    (do plugin_callbacks <- lift (plugin_get_callbacks plugin);
     match plugin_callbacks with
     | Some d =>
         if dict_contains d name
         then do item <- lift (dict_getitem d name); ret (callbacks ++ [item])
         else ret callbacks
     | None => ret callbacks
     end)
    (λ e,
       logger_exception ("Error getting callbacks from " +:+ plugin_str plugin +:+ ".") e;;
       ret callbacks).

(** [get_callbacks(name)], with [__main__.app] passed as [BLACS]. *)
Definition get_callbacks (BLACS : App) (name : string) : M (list callable) :=
  do callbacks <- foldM (visit name) [] (plugins_values BLACS);
  ret (list_sort priority_key callbacks).

(** *** Specification vocabulary *)

(** What one plugin registers under [name]: nothing when its
    [get_callbacks()] raises or returns [None]. *)
Definition entry_of (name : string) (p : plugin) : option callable :=
  match plugin_get_callbacks p with
  | inr (Some d) => d !! name
  | _ => None
  end.

(** The entries registered under [name], in the order the plugins are
    visited. *)
Definition entries_for (name : string) (ps : list plugin) : list callable :=
  omap (entry_of name) ps.

(** The record logged for a plugin whose [get_callbacks()] raises. *)
Definition error_of (p : plugin) : option log_record :=
  match plugin_get_callbacks p with
  | inl e =>
      Some (LogRecord "ERROR" ("Error getting callbacks from " +:+ plugin_str p +:+ ".") e)
  | inr _ => None
  end.
End Dispatcher.

Arguments plugin : clear implicits.
Arguments App : clear implicits.

(** ** The configuration store

    [LabConfig] lives in [labscript_utils], outside this repository. The
    store is modelled as the specification describes it: a key-value store
    organised in named sections, with string values and the five operations
    the module uses; keys are kept as they are written. Where the
    specification is silent on failure, an operation fails as it does in
    Python's [ConfigParser], which [LabConfig] extends; the module-level code
    guards every call so that only [getboolean] on a stored value can fail. *)
Module LabConfig.

(** Modelled from the spec: [has_section] of the missing [LabConfig], whether
    the store has a section of that name. *)
Definition has_section (cfg : gmap string (gmap string string)) (section : string) : bool :=
  bool_decide (is_Some (cfg !! section)).

(** Modelled from the spec: [add_section] of the missing [LabConfig], which
    adds an empty section and raises when the section is there already. *)
Definition add_section (cfg : gmap string (gmap string string)) (section : string)
    : result (gmap string (gmap string string)) :=
  if has_section cfg section
  then inl (DuplicateSectionError section)
  else inr (<[section := ∅]> cfg).

(** Modelled from the spec: [items] of the missing [LabConfig], the sequence
    of (key, value) pairs of a section; it raises when the section is
    missing. *)
Definition items (cfg : gmap string (gmap string string)) (section : string)
    : result (list (string * string)) :=
  match cfg !! section with
  | Some opts => inr (map_to_list opts)
  | None => inl (NoSectionError section)
  end.

(** Modelled from the spec: [set] of the missing [LabConfig], which stores a
    value under a key of a section; it raises when the section is missing. *)
Definition set (cfg : gmap string (gmap string string)) (section option value : string)
    : result (gmap string (gmap string string)) :=
  match cfg !! section with
  | Some opts => inr (<[section := <[option := value]> opts]> cfg)
  | None => inl (NoSectionError section)
  end.

(** Modelled from the spec: [getboolean] of the missing [LabConfig], which
    reads the boolean-as-string stored under a key. [parse] reads a stored
    string as a boolean, [None] when it is not one; the call raises then,
    and when the section or the key is missing. *)
Definition getboolean (parse : string → option bool)
    (cfg : gmap string (gmap string string)) (section option : string) : result bool :=
  match cfg !! section with
  | Some opts =>
      match opts !! option with
      | Some v =>
          match parse v with
          | Some b => inr b
          | None => inl (ValueError ("Not a boolean: " +:+ v))
          end
      | None => inl (NoOptionError option section)
      end
  | None => inl (NoSectionError section)
  end.

End LabConfig.

(** How Python's [ConfigParser.getboolean] reads a string: the value is put
    in lower case and looked up among eight words. *)
Definition ascii_lower (c : ascii) : ascii :=
  let n := nat_of_ascii c in
  if ((65 <=? n) && (n <=? 90))%nat then ascii_of_nat (n + 32) else c.

Fixpoint str_lower (s : string) : string :=
  match s with
  | EmptyString => EmptyString
  | String c s' => String (ascii_lower c) (str_lower s')
  end.

Definition configparser_boolean (v : string) : option bool :=
  if bool_decide (str_lower v ∈ ["1"; "yes"; "true"; "on"]) then Some true
  else if bool_decide (str_lower v ∈ ["0"; "no"; "false"; "off"]) then Some false
  else None.

(** ** The registry: module-level discovery and import *)

Definition default_plugins : list string := ["connection_table"; "general"; "theme"].

(** The section of the store that holds the plugin switches. *)
Definition PLUGINS_SECTION : string := "BLACS/plugins".

(** [str(b)] for a Python boolean. *)
Definition str_bool (b : bool) : string := if b then "True" else "False".

Module Registry.
Section Env.
Context {PyModule : Type}.

(** The environment of the module-level code: the names [os.listdir]
    returns for the plugins directory, [os.path.isdir] on each of them, the
    outcome of [importlib.import_module] for a dotted name, and how the
    store reads a string as a boolean. *)
Variable os_listdir : list string.
Variable os_path_isdir : string → bool.
Variable import_module : string → result PyModule.
Variable parse_boolean : string → option bool.

Abbreviation M := (M PyModule).

(** The methods of [exp_config], each recording its call. *)
Definition exp_config_has_section (section : string) : M bool := λ st,
  (inr (LabConfig.has_section (exp_config st) section),
   configured (exp_config st) [CallHasSection section] st).

Definition exp_config_add_section (section : string) : M unit := λ st,
  match LabConfig.add_section (exp_config st) section with
  | inl e => (inl e, configured (exp_config st) [CallAddSection section] st)
  | inr cfg => (inr (), configured cfg [CallAddSection section] st)
  end.

Definition exp_config_items (section : string) : M (list (string * string)) := λ st,
  (LabConfig.items (exp_config st) section,
   configured (exp_config st) [CallItems section] st).

Definition exp_config_set (section option value : string) : M unit := λ st,
  match LabConfig.set (exp_config st) section option value with
  | inl e => (inl e, configured (exp_config st) [CallSet section option value] st)
  | inr cfg => (inr (), configured cfg [CallSet section option value] st)
  end.

Definition exp_config_getboolean (section option : string) : M bool := λ st,
  (LabConfig.getboolean parse_boolean (exp_config st) section option,
   configured (exp_config st) [CallGetBoolean section option] st).

(** [importlib.import_module(name)], recording the call. *)
Definition importlib_import_module (name : string) : M PyModule := λ st,
  (import_module name, imported [name] st).

(** [modules[module_name] = module]. *)
Definition modules_setitem (module_name : string) (module : PyModule) : M unit := λ st,
  (inr (), with_modules (<[module_name := module]> (modules st)) st).

(** The guard of the loop body: a directory that is not [__pycache__]. *)
Definition is_candidate (module_name : string) : bool :=
  os_path_isdir module_name && negb (String.eqb module_name "__pycache__").

(** The body of [for module_name in os.listdir(PLUGINS_DIR)]. *)
Definition discover (module_name : string) : M unit :=
  if is_candidate module_name then
    do its <- exp_config_items PLUGINS_SECTION;
    (if negb (bool_decide (module_name ∈ its.*1))
     then exp_config_set PLUGINS_SECTION module_name
            (str_bool (bool_decide (module_name ∈ default_plugins)))
     else ret ());;
    do activated <- exp_config_getboolean PLUGINS_SECTION module_name;
    if activated : bool then
      try_catch_else
        (importlib_import_module ("blacs.plugins." +:+ module_name))
        (λ e, logger_exception
                ("Could not import plugin '" +:+ module_name +:+ "'. Skipping.") e)
        (λ module, modules_setitem module_name module)
    else ret ()
  else ret ().

(** The module-level code from [exp_config = LabConfig()] on; it starts in
    the state [initial_state cfg], where [cfg] is what [LabConfig()] loaded. *)
Definition startup : M unit :=
  do present <- exp_config_has_section PLUGINS_SECTION;
  (if negb present
   then exp_config_add_section PLUGINS_SECTION
   else ret ());;
  foldM (λ _ module_name, discover module_name) () os_listdir.

Definition initial_state (cfg : gmap string (gmap string string)) : module_state PyModule :=
  {| exp_config := cfg; config_calls := []; modules := ∅; import_calls := []; logger := [] |}.

(** *** Specification vocabulary *)

(** The switch a plugin is registered with: the stored one, or the default
    when there is none. *)
Definition switch_of (opts : gmap string string) (m : string) : string :=
  default (str_bool (bool_decide (m ∈ default_plugins))) (opts !! m).

(** The section after [m] has been visited. *)
Definition register (m : string) (opts : gmap string string) : gmap string string :=
  match opts !! m with
  | Some _ => opts
  | None => <[m := str_bool (bool_decide (m ∈ default_plugins))]> opts
  end.

(** The section after all of [names] have been visited. *)
Definition register_all (names : list string) (opts : gmap string string)
    : gmap string string :=
  foldl (λ o m, register m o) opts names.

(** Whether the switch of [m] reads as true. *)
Definition activated (opts : gmap string string) (m : string) : bool :=
  match parse_boolean (switch_of opts m) with
  | Some true => true
  | _ => false
  end.

(** The dotted name a plugin is imported under. *)
Definition dotted (m : string) : string := "blacs.plugins." +:+ m.

(** A listed name whose import is attempted. *)
Definition attempted (opts : gmap string string) (m : string) : bool :=
  is_candidate m && activated opts m.

(** The module a listed name contributes to [modules], if any. *)
Definition loaded (opts : gmap string string) (m : string) : option PyModule :=
  if attempted opts m
  then match import_module (dotted m) with inr module => Some module | inl _ => None end
  else None.

Definition load_all (opts : gmap string string) (names : list string)
    (ms : gmap string PyModule) : gmap string PyModule :=
  foldl (λ ms m, match loaded opts m with Some module => <[m := module]> ms | None => ms end)
        ms names.

(** The record a listed name contributes to the log, if any. *)
Definition import_failure (opts : gmap string string) (m : string) : option log_record :=
  if attempted opts m
  then match import_module (dotted m) with
       | inl e => Some (LogRecord "ERROR" ("Could not import plugin '" +:+ m +:+ "'. Skipping.") e)
       | inr _ => None
       end
  else None.

(** The calls one iteration makes on the store whose section is [opts], and
    the calls the whole loop makes. *)
Definition calls_for (m : string) (opts : gmap string string) : list config_call :=
  if is_candidate m then
    [CallItems PLUGINS_SECTION]
    ++ match opts !! m with
       | Some _ => []
       | None => [CallSet PLUGINS_SECTION m (str_bool (bool_decide (m ∈ default_plugins)))]
       end
    ++ [CallGetBoolean PLUGINS_SECTION m]
  else [].

Fixpoint calls_of (names : list string) (opts : gmap string string) : list config_call :=
  match names with
  | [] => []
  | m :: names' =>
      calls_for m opts ++ calls_of names' (if is_candidate m then register m opts else opts)
  end.

(** The state after the store calls of one iteration. *)
Definition visited (m : string) (opts : gmap string string) (st : module_state PyModule)
    : module_state PyModule :=
  configured (<[PLUGINS_SECTION := register m opts]> (exp_config st)) (calls_for m opts) st.

(** The state the loop ends in, from a state whose section is [opts] and
    where the switches read as in [opts0]. *)
Definition after_loop (opts0 opts : gmap string string) (names : list string)
    (st : module_state PyModule) : module_state PyModule :=
  {| exp_config := <[PLUGINS_SECTION := register_all (filter (λ m, is_candidate m) names) opts]>
                     (exp_config st);
     config_calls := config_calls st ++ calls_of names opts;
     modules := load_all opts0 names (modules st);
     import_calls := import_calls st ++ (dotted <$> filter (λ m, attempted opts0 m) names);
     logger := logger st ++ omap (import_failure opts0) names |}.
(** The plugin switches of a store: its [BLACS/plugins] section, empty when
    the section is missing. *)
Definition section_of (cfg : gmap string (gmap string string)) : gmap string string :=
  default ∅ (cfg !! PLUGINS_SECTION).

(** The state once the section is known to exist. *)
Definition prepared (cfg : gmap string (gmap string string)) : module_state PyModule :=
  configured (<[PLUGINS_SECTION := section_of cfg]> cfg)
    (CallHasSection PLUGINS_SECTION
       :: match cfg !! PLUGINS_SECTION with
          | Some _ => []
          | None => [CallAddSection PLUGINS_SECTION]
          end)
    (initial_state cfg).

(** The store reads back the two strings [str] produces for a boolean. *)
Definition boolean_strings : Prop :=
  parse_boolean "True" = Some true ∧ parse_boolean "False" = Some false.

(** The switches already stored for the listed candidates are booleans. *)
Definition switches_are_booleans (cfg : gmap string (gmap string string)) : Prop :=
  ∀ m v, m ∈ os_listdir → is_candidate m = true →
         section_of cfg !! m = Some v → is_Some (parse_boolean v).
End Env.
End Registry.

(** The option a [set] call writes. *)
Definition written_option (c : config_call) : option string :=
  match c with
  | CallSet _ o _ => Some o
  | _ => None
  end.
(** ** Concrete plugins, stores and directories

    Small inputs on which the definitions are run. Argument values are
    integers, the world is trivial, and a module is known by its name. *)
Module Demo.

(** A function that returns [n]. *)
Definition fn (n : Z) : callable Z () := PyFunction (λ _ _ w, (inr n, w)) None.

(** The plugins of the scenario of the specification: [P1] registers
    [save] with priority 5; [P2] registers [save] with priority 5 and
    [load] as a plain function. *)
Definition cb_a : callable Z () := CallbackObject (Callback__init__ (fn 1) (Some 5)).
Definition cb_b : callable Z () := CallbackObject (Callback__init__ (fn 2) (Some 5)).
Definition cb_c : callable Z () := fn 3.

Definition P1 : plugin Z () := Plugin "P1" (inr (Some {[ "save" := cb_a ]})).
Definition P2 : plugin Z () :=
  Plugin "P2" (inr (Some (<["save" := cb_b]> {[ "load" := cb_c ]}))).

Definition app : App Z () := {| plugins := [("p1", P1); ("p2", P2)] |}.

(** More plugins: a late handler, a plugin whose [get_callbacks()] raises,
    a plain function, a [Callback] read through the instance 7, and a
    plugin whose [get_callbacks()] returns [None]. *)
Definition cb_late : callable Z () := CallbackObject (Callback__init__ (fn 4) (Some 20)).
Definition cb_plain : callable Z () := fn 6.
Definition cb_bound : callable Z () := Callback__get__ (Callback__init__ (fn 5) (Some 3)) (Some 7) 0.

Definition P_late : plugin Z () := Plugin "late" (inr (Some {[ "load" := cb_late ]})).
Definition P_broken : plugin Z () := Plugin "broken" (inl (Exception "RuntimeError" "boom")).
Definition P_plain : plugin Z () := Plugin "plain" (inr (Some {[ "load" := cb_plain ]})).
Definition P_bound : plugin Z () := Plugin "bound" (inr (Some {[ "load" := cb_bound ]})).
Definition P_none : plugin Z () := Plugin "none" (inr None).

Definition app5 : App Z () :=
  {| plugins := [("late", P_late); ("broken", P_broken); ("plain", P_plain);
                 ("bound", P_bound); ("none", P_none)] |}.

(** A plugins directory, with a cache directory and a file in it. *)
Definition listing : list string :=
  ["connection_table"; "general"; "theme"; "experimental"; "__pycache__"; "README.md"].

Definition isdir (name : string) : bool := negb (String.eqb name "README.md").

(** Imports return the dotted name, but for [theme], which raises. *)
Definition import (name : string) : result string :=
  if String.eqb name "blacs.plugins.theme"
  then inl (ImportError "No module named qtutils")
  else inr name.

(** A store that has no plugins section yet, and one in which [general]
    has been switched off. *)
Definition fresh_cfg : gmap string (gmap string string) :=
  {[ "paths" := {[ "experiment_shot_storage" := "/data" ]} ]}.

Definition cfg : gmap string (gmap string string) :=
  <["BLACS/plugins" := {[ "general" := "off" ]}]> fresh_cfg.

(** A store in which the switch of [general] is not a boolean. *)
Definition bad_cfg : gmap string (gmap string string) :=
  <["BLACS/plugins" := {[ "general" := "maybe" ]}]> fresh_cfg.

Definition st0 : module_state string := Registry.initial_state ∅.

End Demo.

(** Exceptions can be compared. *)
#[global] Instance exn_eq_dec : EqDecision exn.
Proof. solve_decision. Defined.

(** ** [BasePlugin]

    The base class of plugins. The types of the objects the host hands in
    (menu, notifications, settings, the host itself) and of the classes a
    plugin names are left open. *)
Module BasePlugin.
Section Fields.
Context {value World Settings Menu Notifications Host : Type}.
Context {MenuClass NotificationClass SettingsClass : Type}.

(** The attributes [__init__] creates; [None] is Python's [None]. *)
Record t : Type := mk {
  menu : option Menu;
  notifications : option Notifications;
  initial_settings : Settings;
  BLACS : option Host
}.

Definition __init__ (initial_settings : Settings) : t :=
  {| menu := None; notifications := None;
     initial_settings := initial_settings; BLACS := None |}.

Definition get_menu_class (self : t) : option MenuClass := None.

Definition get_notification_classes (self : t) : list NotificationClass := [].

Definition get_settings_classes (self : t) : list SettingsClass := [].

Definition get_callbacks (self : t) : gmap string (callable value World) := ∅.

Definition set_menu_instance (self : t) (menu : Menu) : t :=
  {| menu := Some menu; notifications := notifications self;
     initial_settings := initial_settings self; BLACS := BLACS self |}.

Definition set_notification_instances (self : t) (notifications : Notifications) : t :=
  {| menu := menu self; notifications := Some notifications;
     initial_settings := initial_settings self; BLACS := BLACS self |}.

Definition plugin_setup_complete (self : t) (BLACS : Host) : t :=
  {| menu := menu self; notifications := notifications self;
     initial_settings := initial_settings self; BLACS := Some BLACS |}.

Definition get_save_data (self : t) : gmap string value := ∅.

(** [close] does nothing. *)
Definition close (self : t) : t := self.

(** The instance as the dispatcher sees it, [str] being [str(self)]. *)
Definition as_plugin (self : t) (str : string) : plugin value World :=
  Plugin str (inr (Some (get_callbacks self))).
End Fields.
End BasePlugin.

(** ** Changing the entries of a registry *)
Section MapEntries.
Context {value World : Type}.

(** The handler [c] with [@callback()] put on it when it has no priority of
    its own. *)
Definition decorate_default (c : callable value World) : callable value World :=
  match getattr_priority c with
  | None => CallbackObject (callback__call__ (callback__init__ None) c)
  | Some _ => c
  end.

(** The plugin whose dictionary holds [g c] where that of [p] holds [c]. *)
Definition map_entries (g : callable value World → callable value World)
    (p : plugin value World) : plugin value World :=
  Plugin (plugin_str p)
    match plugin_get_callbacks p with
    | inr (Some d) => inr (Some (g <$> d))
    | r => r
    end.

Definition map_app (g : callable value World → callable value World)
    (BLACS : App value World) : App value World :=
  {| plugins := prod_map id (map_entries g) <$> plugins BLACS |}.
End MapEntries.

(** ** Plugin objects whose [__str__] may raise

    The record [plugin] above stands for a plugin whose [__str__] returns,
    as that of [BasePlugin] does. An object in [BLACS.plugins] is free to
    define a [__str__] that raises, and the handler of the dispatcher calls
    [str(plugin)] with nothing around it. The dispatcher is embedded here
    for such objects; on plugins whose [__str__] returns it is
    [get_callbacks]. *)
Section AnyPlugin.
Context {value World PyModule : Type}.

(** An object in [BLACS.plugins]: the outcomes of [str(plugin)] and of
    [plugin.get_callbacks()]. *)
Record plugin_object : Type := PluginObject {
  object_str : result string;
  object_get_callbacks : result (option (gmap string (callable value World)))
}.

Definition as_object (p : plugin value World) : plugin_object :=
  {| object_str := inr (plugin_str p); object_get_callbacks := plugin_get_callbacks p |}.

(** One iteration of the loop. In the handler [str(plugin)] is evaluated
    first; when it raises, its exception leaves the handler, the loop and
    the function, and nothing is logged. *)
Definition visit_any (name : string) (callbacks : list (callable value World))
    (plugin : plugin_object) : M PyModule (list (callable value World)) :=
  try_catch
    (do plugin_callbacks <- lift (object_get_callbacks plugin);
     match plugin_callbacks with
     | Some d =>
         if dict_contains d name
         then do item <- lift (dict_getitem d name); ret (callbacks ++ [item])
         else ret callbacks
     | None => ret callbacks
     end)
    (λ e,
       do s <- lift (object_str plugin);
       logger_exception ("Error getting callbacks from " +:+ s +:+ ".") e;;
       ret callbacks).

(** [get_callbacks(name)], with the items of [__main__.app.plugins] passed
    in iteration order. *)
Definition get_callbacks_any (BLACS_plugins : list (string * plugin_object))
    (name : string) : M PyModule (list (callable value World)) :=
  do callbacks <- foldM (visit_any name) [] BLACS_plugins.*2;
  ret (list_sort priority_key callbacks).

(** *** Specification vocabulary *)

(** What an object registers under [name]. *)
Definition registered_by (name : string) (o : plugin_object)
    : option (callable value World) :=
  match object_get_callbacks o with
  | inr (Some d) => d !! name
  | _ => None
  end.

(** The record logged for an object whose [get_callbacks()] raises and whose
    [__str__] returns. *)
Definition failure_record (o : plugin_object) : option log_record :=
  match object_get_callbacks o, object_str o with
  | inl e, inr s =>
      Some (LogRecord "ERROR" ("Error getting callbacks from " +:+ s +:+ ".") e)
  | _, _ => None
  end.

(** [__str__] returns for the object if its [get_callbacks()] raises. *)
Definition str_returns_on_failure (o : plugin_object) : Prop :=
  ∀ e, object_get_callbacks o = inl e → ∃ s, object_str o = inr s.

(** The priority of an entry: its [priority] attribute, which a bound method
    takes from the callable it wraps, and 10 when it has none. *)
Fixpoint priority_of (c : callable value World) : Z :=
  match c with
  | PyFunction _ (Some n) => n
  | PyFunction _ None => 10
  | MethodType f _ => priority_of f
  | CallbackObject (mkCallback n _) => n
  end.
End AnyPlugin.

Arguments plugin_object : clear implicits.

(** More concrete inputs. *)
Module DemoMore.

(** The plugins of [Demo.app5], registered in the opposite order. *)
Definition app5_rev : App Z () :=
  {| plugins := [("none", Demo.P_none); ("bound", Demo.P_bound); ("plain", Demo.P_plain);
                 ("broken", Demo.P_broken); ("late", Demo.P_late)] |}.

(** A registry of plugins that keep the methods of [BasePlugin]. *)
Definition base : BasePlugin.t (Settings := Z) (Menu := ()) (Notifications := ())
                    (Host := ()) :=
  BasePlugin.__init__ 0.

Definition base_app : App Z () :=
  {| plugins := [("a", BasePlugin.as_plugin base "a"); ("b", BasePlugin.as_plugin base "b")] |}.

(** A store in which every stored switch is a boolean, one of them for a
    name that is not listed. *)
Definition cfg : gmap string (gmap string string) :=
  <["BLACS/plugins" := <["retired" := "yes"]> {[ "general" := "off" ]}]> Demo.fresh_cfg.

(** A directory without plugins. *)
Definition no_plugins : list string := ["__pycache__"; "README.md"].

(** An object whose [get_callbacks()] raises and whose [__str__] raises as
    well, between two plugins that register [load]. *)
Definition nameless : plugin_object Z () :=
  {| object_str := inl (ValueError "no name");
     object_get_callbacks := inl (Exception "RuntimeError" "boom") |}.

Definition nameless_plugins : list (string * plugin_object Z ()) :=
  [("late", as_object Demo.P_late); ("nameless", nameless);
   ("plain", as_object Demo.P_plain)].

(** The registry of [Demo.app5] as objects. *)
Definition app5_objects : list (string * plugin_object Z ()) :=
  prod_map id as_object <$> plugins Demo.app5.

(** A store in which [experimental] is switched on and the switch of
    [general], listed before it, is not a boolean. *)
Definition bad_cfg_on : gmap string (gmap string string) :=
  <["BLACS/plugins" := <["experimental" := "True"]> {[ "general" := "maybe" ]}]>
    Demo.fresh_cfg.

End DemoMore.

(** * Properties *)

(** ** The sort *)
Section SortFacts.
Context {A : Type} (key : A → Z).

Abbreviation key_le := (λ a b : A, key a ≤ key b).
Abbreviation key_lt := (λ a b : A, key a < key b).

Lemma insert_by_key_perm (x : A) (l : list A) : insert_by_key key x l ≡ₚ x :: l.
Proof.
  induction l as [|y l IH]; simpl; [done|].
  destruct (key x <=? key y); [done|].
  rewrite IH. apply Permutation_swap.
Qed.

Lemma list_sort_perm (l : list A) : list_sort key l ≡ₚ l.
Proof.
  induction l as [|x l IH]; simpl; [done|].
  by rewrite insert_by_key_perm, IH.
Qed.

Lemma insert_by_key_sorted (x : A) (l : list A) :
  StronglySorted key_le l → StronglySorted key_le (insert_by_key key x l).
Proof.
  induction 1 as [|y l Hl IH Hy]; simpl.
  - repeat constructor.
  - destruct (Z.leb_spec (key x) (key y)) as [Hxy|Hxy].
    + constructor; [by constructor|].
      constructor; [done|].
      eapply Forall_impl; [exact Hy|]. intros z Hz. simpl in *. lia.
    + constructor; [done|].
      rewrite insert_by_key_perm. constructor; [lia | done].
Qed.

Lemma list_sort_sorted (l : list A) : StronglySorted key_le (list_sort key l).
Proof.
  induction l as [|x l IH]; simpl; [constructor|].
  by apply insert_by_key_sorted.
Qed.

(** Inserting does not move [x] past an element with the same key. *)
Lemma insert_by_key_filter (p : Z) (x : A) (l : list A) :
  filter (λ a, key a = p) (insert_by_key key x l) = filter (λ a, key a = p) (x :: l).
Proof.
  induction l as [|y l IH]; simpl; [done|].
  destruct (Z.leb_spec (key x) (key y)) as [Hxy|Hxy]; [done|].
  rewrite filter_cons, IH, !filter_cons.
  repeat case_decide; try done; lia.
Qed.

(** Stability: the elements of one key keep their order. *)
Lemma list_sort_stable (p : Z) (l : list A) :
  filter (λ a, key a = p) (list_sort key l) = filter (λ a, key a = p) l.
Proof.
  induction l as [|x l IH]; simpl; [done|].
  by rewrite insert_by_key_filter, !filter_cons, IH.
Qed.


(** With pairwise distinct keys the order is strict. *)
Lemma list_sort_strict (l : list A) :
  NoDup (key <$> l) → StronglySorted key_lt (list_sort key l).
Proof.
  intros Hnd.
  assert (Hnd' : NoDup (key <$> list_sort key l)) by by rewrite list_sort_perm.
  pose proof (list_sort_sorted l) as Hs.
  induction Hs as [|x l' Hl' IH Hx]; [constructor|].
  rewrite fmap_cons in Hnd'. apply NoDup_cons in Hnd' as [Hx' Hnd'].
  constructor; [by apply IH|].
  apply Forall_forall. intros y Hy.
  rewrite Forall_forall in Hx. specialize (Hx y Hy). simpl in Hx.
  assert (key x ≠ key y); [|lia].
  intros Heq. apply Hx'. rewrite Heq. by apply list_elem_of_fmap_2.
Qed.

(** Two ordered lists with the same elements of each key, in the same order,
    are equal: a stable sort has one possible result. *)
Lemma stable_sorted_unique (l1 l2 : list A) :
  StronglySorted key_le l1 → StronglySorted key_le l2 →
  (∀ p, filter (λ a, key a = p) l1 = filter (λ a, key a = p) l2) →
  l1 = l2.
Proof.
  intros H1. revert l2. induction H1 as [|x l1 Hl1 IH Hx]; intros l2 H2 Hf.
  - destruct l2 as [|y l2]; [done|].
    specialize (Hf (key y)). rewrite filter_cons in Hf.
    by case_decide.
  - destruct H2 as [|y l2 Hl2 Hy].
    { specialize (Hf (key x)). rewrite filter_cons in Hf. by case_decide. }
    assert (Hxy : key x = key y).
    { pose proof (Hf (key x)) as Fx. pose proof (Hf (key y)) as Fy.
      assert (Ix : x ∈ filter (λ a, key a = key x) (y :: l2)).
      { rewrite <- Fx, filter_cons. case_decide; [left | done]. }
      assert (Iy : y ∈ filter (λ a, key a = key y) (x :: l1)).
      { rewrite Fy, filter_cons. case_decide; [left | done]. }
      apply list_elem_of_filter in Ix as [_ Ix], Iy as [_ Iy].
      apply elem_of_cons in Ix as [?|Ix]; [by subst|].
      apply elem_of_cons in Iy as [?|Iy]; [by subst|].
      rewrite Forall_forall in Hx, Hy.
      specialize (Hx _ Iy). specialize (Hy _ Ix). simpl in *. lia. }
    pose proof (Hf (key x)) as Fx. rewrite !filter_cons in Fx.
    rewrite decide_True in Fx by done. rewrite decide_True in Fx by done.
    injection Fx as -> Fx. f_equal. apply IH; [done|].
    intros p. specialize (Hf p). rewrite !filter_cons in Hf.
    case_decide; [|done]. by injection Hf.
Qed.

(** Any list that is in key order and keeps the elements of each key in the
    order of [l] is [list_sort key l]: the embedding of [list.sort] does not
    depend on the sorting algorithm. *)
Lemma list_sort_unique (l l' : list A) :
  StronglySorted key_le l' →
  (∀ p, filter (λ a, key a = p) l' = filter (λ a, key a = p) l) →
  l' = list_sort key l.
Proof.
  intros Hs Hf. apply stable_sorted_unique; [done | apply list_sort_sorted |].
  intros p. by rewrite Hf, list_sort_stable.
Qed.
End SortFacts.

(** ** The callback wrapper *)
Section CallbackFacts.
Context {value World : Type}.

Abbreviation callable := (callable value World).
Abbreviation Callback := (Callback value World).

(** C5 (bound-call law). Reading a [Callback] through a plugin instance and
    calling the result runs the wrapped callable with that instance in front
    of the arguments given, in the same world and with the same keyword
    arguments; an ordinary function read through the instance does exactly
    the same. Read on the class, the wrapper is returned as it is. *)
Theorem Callback_bound_call (self : Callback) (instance class_ : value)
    (args : list value) (kwargs : list (string * value)) (w : World) :
  call (Callback__get__ self (Some instance) class_) args kwargs w
    = call (func self) (instance :: args) kwargs w
  ∧ call (Callback__get__ self (Some instance) class_) args kwargs w
    = call (function__get__ (func self) (Some instance) class_) args kwargs w
  ∧ Callback__get__ self None class_ = CallbackObject self.
Proof. by destruct self. Qed.

(** C6. Calling [Callback(f, priority)] runs [f] on the arguments and keyword
    arguments given and yields what [f] yields, outcome and world; its
    priority is the one given, and 10 when none is given. The decorator
    [callback(priority)(f)] builds the same wrapper. *)
Theorem Callback_call_forwards (f : callable) (p : option Z)
    (args : list value) (kwargs : list (string * value)) (w : World) :
  call (CallbackObject (Callback__init__ f p)) args kwargs w = call f args kwargs w
  ∧ func (Callback__init__ f p) = f
  ∧ priority (Callback__init__ f p) = match p with Some n => n | None => 10 end
  ∧ callback__call__ (callback__init__ p) f = Callback__init__ f p.
Proof. by destruct p. Qed.

(** A bound [Callback] keeps the priority of the wrapper. *)
Lemma priority_key_bound (self : Callback) (instance class_ : value) :
  priority_key (Callback__get__ self (Some instance) class_) = priority self.
Proof. done. Qed.
End CallbackFacts.

(** ** The dispatcher *)
Section DispatcherFacts.
Context {value World PyModule : Type}.

Abbreviation callable := (callable value World).
Abbreviation plugin := (plugin value World).
Abbreviation App := (App value World).
Abbreviation module_state := (module_state PyModule).

Implicit Types (st : module_state) (p : plugin) (ps : list plugin) (name : string).

Lemma logged_nil st : logged [] st = st.
Proof. destruct st. unfold logged. simpl. by rewrite app_nil_r. Qed.

Lemma logged_app (rs1 rs2 : list log_record) st :
  logged rs2 (logged rs1 st) = logged (rs1 ++ rs2) st.
Proof. unfold logged. simpl. by rewrite app_assoc. Qed.

(** One iteration appends the plugin's entry, if any, and logs its failure,
    if any; it returns in every case. *)
Lemma visit_run name (callbacks : list callable) p st :
  visit name callbacks p st
  = (inr (callbacks ++ option_list (entry_of name p)),
     logged (option_list (error_of p)) st).
Proof.
  unfold visit, try_catch, bind, lift, entry_of, error_of, dict_contains, dict_getitem.
  destruct (plugin_get_callbacks p) as [e|[d|]]; simpl.
  - by rewrite app_nil_r.
  - case_bool_decide as Hin.
    + destruct Hin as [c Hc]. rewrite Hc. simpl. by rewrite logged_nil.
    + destruct (d !! name) as [c|] eqn:Hc; [by destruct Hin; eauto|].
      simpl. by rewrite app_nil_r, logged_nil.
  - by rewrite app_nil_r, logged_nil.
Qed.

Lemma omap_cons_option_list {X Y} (f : X → option Y) (x : X) (l : list X) :
  omap f (x :: l) = option_list (f x) ++ omap f l.
Proof. simpl. by destruct (f x). Qed.

Lemma foldM_visit name ps : ∀ (callbacks : list callable) st,
  foldM (visit name) callbacks ps st
  = (inr (callbacks ++ entries_for name ps), logged (omap error_of ps) st).
Proof.
  induction ps as [|p ps IH]; intros callbacks st.
  - simpl. unfold ret. by rewrite app_nil_r, logged_nil.
  - cbn [foldM]. unfold bind at 1. rewrite visit_run, IH, logged_app.
    unfold entries_for. by rewrite !omap_cons_option_list, app_assoc.
Qed.

(** The dispatcher returns, with the registered entries sorted by priority,
    and logs one record per failing plugin. *)
Lemma get_callbacks_run (BLACS : App) name st :
  get_callbacks BLACS name st
  = (inr (list_sort priority_key (entries_for name (plugins_values BLACS))),
     logged (omap error_of (plugins_values BLACS)) st).
Proof. unfold get_callbacks, bind. by rewrite foldM_visit. Qed.

Lemma sorted_priorities (R : relation Z) (l : list callable) :
  StronglySorted (λ a b, R (priority_key a) (priority_key b)) l →
  StronglySorted R (priority_key <$> l).
Proof. by apply StronglySorted_fmap. Qed.

Lemma entries_for_absent name ps :
  (∀ p, p ∈ ps → entry_of name p = None) → entries_for name ps = [].
Proof.
  unfold entries_for. induction ps as [|p ps IH]; intros Hno; [done|].
  rewrite omap_cons_option_list, (Hno p) by left.
  apply IH. intros q Hq. apply Hno. by right.
Qed.

(** A plugin that keeps [BasePlugin.get_callbacks] registers nothing. *)
Lemma BasePlugin_entry name (s : string) :
  entry_of name (Plugin s BasePlugin_get_callbacks : plugin) = None.
Proof. unfold entry_of. simpl. apply lookup_empty. Qed.

(** The sort key of the dispatcher is the priority of the entry. *)
Lemma priority_key_priority_of (c : callable) : priority_key c = priority_of c.
Proof.
  unfold priority_key. induction c as [f [n|]|f IH i|[n f]]; try done.
Qed.





(** Leaving out a plugin that registers nothing under [name] does not
    change the entries. *)
Lemma entries_for_without name (ps1 ps2 : list (string * plugin)) (k : string) p :
  entry_of name p = None →
  entries_for name (ps1 ++ (k, p) :: ps2).*2 = entries_for name (ps1 ++ ps2).*2.
Proof.
  intros Hp. unfold entries_for.
  rewrite !fmap_app, fmap_cons, !omap_app, omap_cons_option_list. simpl.
  by rewrite Hp.
Qed.

(** For plugins whose [__str__] returns: when the [get_callbacks()] of a
    registered plugin raises, the dispatcher returns all the same, and what
    it returns is what it returns without that plugin: the entries of the
    other plugins, none of the failing one, in ascending priority order with
    equal priorities in visiting order. The failure is logged, as an ERROR
    record that names the plugin and holds the exception. *)
Theorem get_callbacks_plugin_raises (BLACS : App) name st
    (ps1 ps2 : list (string * plugin)) (k : string) p (e : exn) :
  plugins BLACS = ps1 ++ (k, p) :: ps2 →
  plugin_get_callbacks p = inl e →
  ∃ callbacks st',
    get_callbacks BLACS name st = (inr callbacks, st')
    ∧ (get_callbacks {| plugins := ps1 ++ ps2 |} name st).1 = inr callbacks
    ∧ callbacks ≡ₚ entries_for name (ps1 ++ ps2).*2
    ∧ StronglySorted Z.le (priority_key <$> callbacks)
    ∧ (∀ n, filter (λ c, priority_key c = n) callbacks
            = filter (λ c, priority_key c = n) (entries_for name (ps1 ++ ps2).*2))
    ∧ LogRecord "ERROR" ("Error getting callbacks from " +:+ plugin_str p +:+ ".") e
        ∈ logger st'.
Proof.
  intros Hps Hp. eexists _, _. split; [apply get_callbacks_run|].
  assert (He : entry_of name p = None) by (unfold entry_of; by rewrite Hp).
  unfold plugins_values. rewrite Hps, (entries_for_without _ _ _ _ _ He).
  split; [by rewrite get_callbacks_run|].
  split; [apply list_sort_perm|].
  split; [apply sorted_priorities, list_sort_sorted|].
  split; [intros n; apply list_sort_stable|].
  simpl. apply elem_of_app. right.
  apply list_elem_of_omap. exists p. split.
  - rewrite fmap_app, fmap_cons. apply elem_of_app. right. left.
  - unfold error_of. by rewrite Hp.
Qed.


(** The dispatcher makes no call on the configuration store and leaves it,
    the loaded modules and the import record as they are. *)
Lemma get_callbacks_frame (BLACS : App) name st :
  exp_config (get_callbacks BLACS name st).2 = exp_config st
  ∧ config_calls (get_callbacks BLACS name st).2 = config_calls st
  ∧ modules (get_callbacks BLACS name st).2 = modules st
  ∧ import_calls (get_callbacks BLACS name st).2 = import_calls st.
Proof. by rewrite get_callbacks_run. Qed.
End DispatcherFacts.

(** ** More on the dispatcher *)
Section DispatcherMore.
Context {value World PyModule : Type}.
Context {Settings Menu Notifications Host : Type}.

Abbreviation callable := (callable value World).
Abbreviation plugin := (plugin value World).
Abbreviation App := (App value World).
Abbreviation module_state := (module_state PyModule).
Abbreviation BasePlugin := (@BasePlugin.t Settings Menu Notifications Host).

Implicit Types (st : module_state) (p : plugin) (ps : list plugin) (name : string)
  (BLACS : App).

Lemma entry_of_Some name p (c : callable) :
  entry_of name p = Some c
  ↔ ∃ d, plugin_get_callbacks p = inr (Some d) ∧ d !! name = Some c.
Proof.
  unfold entry_of. destruct (plugin_get_callbacks p) as [e|[d|]].
  - split; [done | by intros (d' & ? & _)].
  - split; [by eauto | by intros (d' & [= <-] & ?)].
  - split; [done | by intros (d' & ? & _)].
Qed.

Lemma length_omap_le {X Y} (f : X → option Y) (l : list X) :
  (length (omap f l) ≤ length l)%nat.
Proof.
  induction l as [|x l IH]; [done|].
  rewrite omap_cons_option_list, length_app. destruct (f x); simpl; lia.
Qed.

(** X2. A plugin contributes at most one callback to a dispatch: the list
    returned is never longer than the registry. *)
Theorem get_callbacks_length BLACS name st :
  ∃ callbacks st',
    get_callbacks BLACS name st = (inr callbacks, st')
    ∧ (length callbacks ≤ length (plugins BLACS))%nat.
Proof.
  eexists _, _. split; [apply get_callbacks_run|].
  rewrite list_sort_perm. unfold entries_for, plugins_values.
  etrans; [apply length_omap_le|]. by rewrite length_fmap.
Qed.

(** X3. When the priorities of the entries registered under [name] are
    pairwise distinct, the list returned does not depend on the order in
    which the registry yields the plugins. *)
Theorem get_callbacks_order_independent BLACS (BLACS' : App) name st st0 :
  plugins BLACS ≡ₚ plugins BLACS' →
  NoDup (priority_key <$> entries_for name (plugins_values BLACS)) →
  (get_callbacks BLACS name st).1 = (get_callbacks BLACS' name st0).1.
Proof.
  intros Hperm Hnd. rewrite !get_callbacks_run. simpl. f_equal.
  assert (Hperm' : entries_for name (plugins_values BLACS)
                   ≡ₚ entries_for name (plugins_values BLACS')).
  { unfold entries_for, plugins_values. by rewrite Hperm. }
  apply (StronglySorted_unique_strong (λ a b, priority_key a < priority_key b)).
  - intros c1 c2 _ _ ? ?. lia.
  - by apply list_sort_strict.
  - apply list_sort_strict. by rewrite <- Hperm'.
  - by rewrite !list_sort_perm.
Qed.

(** X5. A plugin that keeps [BasePlugin.get_callbacks] registers nothing:
    with or without it the dispatcher returns the same list in the same
    state, and a registry of such plugins alone yields the empty list for
    every name, with nothing logged. *)
Theorem BasePlugin_registers_nothing (self : BasePlugin) (s k : string)
    (ps1 ps2 : list (string * plugin)) BLACS name st :
  get_callbacks {| plugins := ps1 ++ (k, BasePlugin.as_plugin self s) :: ps2 |} name st
    = get_callbacks {| plugins := ps1 ++ ps2 |} name st
  ∧ ((∀ p, p ∈ plugins_values BLACS →
           ∃ (self' : BasePlugin) s', p = BasePlugin.as_plugin self' s') →
     get_callbacks BLACS name st = (inr [], st)).
Proof.
  split.
  - rewrite !get_callbacks_run. unfold plugins_values. simpl.
    rewrite entries_for_without by apply lookup_empty.
    by rewrite !fmap_app, fmap_cons, !omap_app, omap_cons_option_list.
  - intros Hbase. rewrite get_callbacks_run.
    rewrite entries_for_absent.
    + simpl. f_equal.
      replace (omap error_of (plugins_values BLACS)) with (@nil log_record);
        [apply logged_nil|].
      symmetry. induction (plugins_values BLACS) as [|p ps IH]; [done|].
      rewrite omap_cons_option_list, IH by (intros q Hq; apply Hbase; by right).
      by destruct (Hbase p) as (self' & s' & ->); [left|].
    + intros p Hp. destruct (Hbase p Hp) as (self' & s' & ->). apply lookup_empty.
Qed.
End DispatcherMore.

(** ** The dispatcher on objects whose [__str__] may raise *)
Section AnyPluginFacts.
Context {value World PyModule : Type}.

Abbreviation callable := (callable value World).
Abbreviation plugin := (plugin value World).
Abbreviation plugin_object := (plugin_object value World).
Abbreviation App := (App value World).
Abbreviation module_state := (module_state PyModule).

Implicit Types (st : module_state) (o : plugin_object) (os : list plugin_object)
  (name : string) (callbacks : list callable).

(** A loop over [l1 ++ l2] is the loop over [l1] followed by that over [l2]. *)
Lemma foldM_app {X Y} (body : X → Y → M PyModule X) (l1 l2 : list Y) : ∀ (a : X) st,
  foldM body a (l1 ++ l2) st = bind (foldM body a l1) (λ a', foldM body a' l2) st.
Proof.
  induction l1 as [|x l1 IH]; intros a st; [done|].
  cbn [foldM app]. unfold bind.
  destruct (body a x st) as [[e|a'] st1]; [done|].
  rewrite IH. by unfold bind.
Qed.

(** On a plugin whose [__str__] returns an iteration is [visit]. *)
Lemma visit_any_as_object name callbacks (p : plugin) st :
  visit_any name callbacks (as_object p) st = visit name callbacks p st.
Proof.
  unfold visit_any, visit, try_catch, bind, lift. simpl.
  by destruct (plugin_get_callbacks p) as [e|[d|]].
Qed.

Lemma get_callbacks_any_as_object (BLACS : App) name st :
  get_callbacks_any (prod_map id as_object <$> plugins BLACS) name st
  = get_callbacks BLACS name st.
Proof.
  unfold get_callbacks_any, get_callbacks, plugins_values, bind.
  assert (Hfold : ∀ (l : list (string * plugin)) callbacks st0,
            foldM (visit_any name) callbacks (prod_map id as_object <$> l).*2 st0
            = foldM (visit name) callbacks l.*2 st0).
  { induction l as [|[k p] l IH]; intros callbacks st0; [done|].
    cbn [fmap list_fmap foldM prod_map]. unfold bind. simpl.
    rewrite visit_any_as_object.
    destruct (visit name callbacks p st0) as [[e|callbacks'] st1]; [done|]. apply IH. }
  by rewrite Hfold.
Qed.

(** An iteration on an object whose [__str__] returns if its
    [get_callbacks()] raises. *)
Lemma visit_any_run name callbacks o st :
  str_returns_on_failure o →
  visit_any name callbacks o st
  = (inr (callbacks ++ option_list (registered_by name o)),
     logged (option_list (failure_record o)) st).
Proof.
  intros Hstr.
  unfold visit_any, try_catch, bind, lift, registered_by, failure_record,
    dict_contains, dict_getitem.
  destruct (object_get_callbacks o) as [e|[d|]] eqn:Hg; simpl.
  - destruct (Hstr e Hg) as [s ->]. simpl. by rewrite app_nil_r.
  - case_bool_decide as Hin.
    + destruct Hin as [c Hc]. rewrite Hc. simpl. by rewrite logged_nil.
    + destruct (d !! name) as [c|] eqn:Hc; [by destruct Hin; eauto|].
      simpl. by rewrite app_nil_r, logged_nil.
  - by rewrite app_nil_r, logged_nil.
Qed.

(** An iteration on an object whose [get_callbacks()] and [__str__] both
    raise: the exception of [__str__] leaves the handler, nothing is
    logged. *)
Lemma visit_any_fatal name callbacks o st (e e' : exn) :
  object_get_callbacks o = inl e → object_str o = inl e' →
  visit_any name callbacks o st = (inl e', st).
Proof.
  intros Hg Hs. unfold visit_any, try_catch, bind, lift. by rewrite Hg, Hs.
Qed.

Lemma foldM_visit_any name os : ∀ callbacks st,
  Forall str_returns_on_failure os →
  foldM (visit_any name) callbacks os st
  = (inr (callbacks ++ omap (registered_by name) os),
     logged (omap failure_record os) st).
Proof.
  induction os as [|o os IH]; intros callbacks st Hall.
  - simpl. unfold ret. by rewrite app_nil_r, logged_nil.
  - apply Forall_cons in Hall as [Ho Hall].
    cbn [foldM]. unfold bind at 1. rewrite visit_any_run, IH, logged_app by done.
    by rewrite !omap_cons_option_list, app_assoc.
Qed.

Lemma omap_snd {X} (f : plugin_object → option X) (l : list (string * plugin_object)) :
  omap f l.*2 = omap (λ ko, f ko.2) l.
Proof.
  induction l as [|[k o] l IH]; [done|].
  by rewrite fmap_cons, !omap_cons_option_list, IH.
Qed.

(** The dispatcher on a registry in which [__str__] returns for every
    object whose [get_callbacks()] raises. *)
Lemma get_callbacks_any_run (BLACS_plugins : list (string * plugin_object)) name st :
  (∀ k o, (k, o) ∈ BLACS_plugins → str_returns_on_failure o) →
  get_callbacks_any BLACS_plugins name st
  = (inr (list_sort priority_key (omap (λ ko, registered_by name ko.2) BLACS_plugins)),
     logged (omap (λ ko, failure_record ko.2) BLACS_plugins) st).
Proof.
  intros Hall. unfold get_callbacks_any, bind.
  rewrite foldM_visit_any, !omap_snd; [done|].
  apply Forall_forall. intros o ([k o'] & -> & Hin)%list_elem_of_fmap.
  by apply (Hall k).
Qed.

(** The dispatcher stops at the first object whose [get_callbacks()] and
    [__str__] both raise: it raises the exception of [__str__], returns no
    callback, and has logged the failures before that object only. *)
Lemma get_callbacks_any_fatal (pre post : list (string * plugin_object)) (k : string)
    o name st (e e' : exn) :
  (∀ k' o', (k', o') ∈ pre → str_returns_on_failure o') →
  object_get_callbacks o = inl e → object_str o = inl e' →
  get_callbacks_any (pre ++ (k, o) :: post) name st
  = (inl e', logged (omap (λ ko, failure_record ko.2) pre) st).
Proof.
  intros Hpre Hg Hs. unfold get_callbacks_any.
  rewrite fmap_app, fmap_cons. unfold bind at 1. rewrite foldM_app.
  unfold bind at 1. rewrite foldM_visit_any.
  - cbn [foldM]. unfold bind at 1. rewrite (visit_any_fatal _ _ _ _ e e') by done.
    by rewrite omap_snd.
  - apply Forall_forall. intros o' ([k' o''] & -> & Hin)%list_elem_of_fmap.
    by apply (Hpre k').
Qed.

(** X1. When [str(plugin)] returns for every plugin whose [get_callbacks()]
    raises, the dispatcher returns, and the list it returns holds the
    entries that the dictionaries of the plugins in [BLACS.plugins] have
    under [name], each as often as it is registered, in ascending order of
    priority (the [priority] attribute, 10 when there is none). *)
Theorem get_callbacks_sorted_permutation
    (BLACS_plugins : list (string * plugin_object)) name st :
  (∀ k o e, (k, o) ∈ BLACS_plugins → object_get_callbacks o = inl e →
            ∃ s, object_str o = inr s) →
  ∃ callbacks st',
    get_callbacks_any BLACS_plugins name st = (inr callbacks, st')
    ∧ callbacks ≡ₚ omap (λ ko, registered_by name ko.2) BLACS_plugins
    ∧ (∀ c, c ∈ callbacks
            ↔ ∃ k o d, (k, o) ∈ BLACS_plugins
                       ∧ object_get_callbacks o = inr (Some d) ∧ d !! name = Some c)
    ∧ StronglySorted Z.le (priority_of <$> callbacks).
Proof.
  intros Hstr. eexists _, _.
  split; [apply get_callbacks_any_run; intros k o Hin e; by apply (Hstr k)|].
  split; [apply list_sort_perm|]. split.
  - intros c. rewrite list_sort_perm, list_elem_of_omap. split.
    + intros ([k o] & Hin & Hc). unfold registered_by in Hc. simpl in Hc.
      destruct (object_get_callbacks o) as [e|[d|]] eqn:Hg; try done. eauto 10.
    + intros (k & o & d & Hin & Hg & Hc). exists (k, o). split; [done|].
      unfold registered_by. simpl. by rewrite Hg.
  - rewrite <- (list_fmap_ext priority_key priority_of)
      by (intros _ c _; apply priority_key_priority_of).
    apply sorted_priorities, list_sort_sorted.
Qed.

(** X4. When [str(plugin)] returns for every plugin whose [get_callbacks()]
    raises, the dispatcher adds to the log exactly one ERROR record for each
    such plugin, in the order of [BLACS.plugins], and nothing else; what it
    logs does not depend on the name asked for, and when no plugin raises
    the state is left as it is. *)
Theorem get_callbacks_logging (BLACS_plugins : list (string * plugin_object)) name st :
  (∀ k o e, (k, o) ∈ BLACS_plugins → object_get_callbacks o = inl e →
            ∃ s, object_str o = inr s) →
  logger (get_callbacks_any BLACS_plugins name st).2
    = logger st
      ++ omap (λ ko, match object_get_callbacks ko.2, object_str ko.2 with
                     | inl e, inr s =>
                         Some (LogRecord "ERROR"
                                 ("Error getting callbacks from " +:+ s +:+ ".") e)
                     | _, _ => None
                     end) BLACS_plugins
  ∧ (∀ name', (get_callbacks_any BLACS_plugins name' st).2
              = (get_callbacks_any BLACS_plugins name st).2)
  ∧ ((∀ k o, (k, o) ∈ BLACS_plugins → ∃ d, object_get_callbacks o = inr d) →
     (get_callbacks_any BLACS_plugins name st).2 = st).
Proof.
  intros Hstr.
  assert (Hall : ∀ k o, (k, o) ∈ BLACS_plugins → str_returns_on_failure o).
  { intros k o Hin e. by apply (Hstr k). }
  split; [by rewrite get_callbacks_any_run|].
  split; [intros name'; by rewrite !get_callbacks_any_run|].
  intros Hok. rewrite get_callbacks_any_run by done. simpl.
  replace (omap (λ ko, failure_record ko.2) BLACS_plugins) with (@nil log_record);
    [apply logged_nil|].
  symmetry. clear Hstr Hall.
  induction BLACS_plugins as [|[k o] l IH]; [done|].
  rewrite omap_cons_option_list, IH by (intros k' o' Hin; apply (Hok k'); by right).
  destruct (Hok k o) as [d Hd]; [left|]. unfold failure_record. simpl. by rewrite Hd.
Qed.

(** C4. The handler of the dispatcher calls [str(plugin)] with nothing
    around it. For the registry [late], [nameless], [plain], in which the
    [get_callbacks()] of [nameless] raises and its [__str__] raises too,
    the dispatcher does not return the callbacks of the two other plugins
    and does not log the failure: it raises the exception of [__str__] and
    leaves the log as it was. Without [nameless] it returns the two
    callbacks. *)
Theorem get_callbacks_str_raises :
  object_get_callbacks DemoMore.nameless = inl (Exception "RuntimeError" "boom")
  ∧ get_callbacks_any DemoMore.nameless_plugins "load" Demo.st0
    = (inl (ValueError "no name"), Demo.st0)
  ∧ get_callbacks_any [("late", as_object Demo.P_late); ("plain", as_object Demo.P_plain)]
      "load" Demo.st0
    = (inr [Demo.cb_plain; Demo.cb_late], Demo.st0).
Proof. repeat split. Qed.
End AnyPluginFacts.

(** ** The decorator and the dispatcher *)
Section DecoratorFacts.
Context {value World PyModule : Type}.

Abbreviation callable := (callable value World).
Abbreviation plugin := (plugin value World).
Abbreviation App := (App value World).
Abbreviation module_state := (module_state PyModule).

(** X6. A method defined with [@callback(priority=p)] and read through the
    instance, as a plugin does when it fills the dictionary of
    [get_callbacks()], is sorted by the dispatcher under [p] (10 when the
    decorator is given no priority), and calling it runs the decorated
    function with the instance put first. Read on the class and given the
    instance by hand, it runs the function in the same way. *)
Theorem decorated_method_entry (f : callable) (p : option Z) (instance class_ : value)
    (args : list value) (kwargs : list (string * value)) (w : World) :
  priority_key (Callback__get__ (callback__call__ (callback__init__ p) f)
                  (Some instance) class_)
    = match p with Some n => n | None => 10 end
  ∧ call (Callback__get__ (callback__call__ (callback__init__ p) f)
            (Some instance) class_) args kwargs w
    = call f (instance :: args) kwargs w
  ∧ call (Callback__get__ (callback__call__ (callback__init__ p) f) None class_)
      (instance :: args) kwargs w
    = call f (instance :: args) kwargs w.
Proof. by destruct p. Qed.

Lemma insert_by_key_fmap {A} (key : A → Z) (g : A → A) (x : A) (l : list A) :
  (∀ a, key (g a) = key a) →
  insert_by_key key (g x) (g <$> l) = g <$> insert_by_key key x l.
Proof.
  intros Hg. induction l as [|y l IH]; [done|].
  cbn [fmap list_fmap insert_by_key]. rewrite !Hg.
  destruct (key x <=? key y); [done|].
  cbn [fmap list_fmap]. f_equal. apply IH.
Qed.

(** Sorting commutes with a change of the elements that keeps their keys. *)
Lemma list_sort_fmap {A} (key : A → Z) (g : A → A) (l : list A) :
  (∀ a, key (g a) = key a) →
  list_sort key (g <$> l) = g <$> list_sort key l.
Proof.
  intros Hg. induction l as [|x l IH]; [done|].
  cbn [fmap list_fmap list_sort]. fold (g <$> l).
  by rewrite IH, insert_by_key_fmap.
Qed.

Lemma entry_of_map_entries (g : callable → callable) name (p : plugin) :
  entry_of name (map_entries g p) = g <$> entry_of name p.
Proof.
  unfold entry_of, map_entries. simpl.
  destruct (plugin_get_callbacks p) as [e|[d|]]; [done| |done].
  apply lookup_fmap.
Qed.

Lemma error_of_map_entries (g : callable → callable) (p : plugin) :
  error_of (map_entries g p) = error_of p.
Proof.
  unfold error_of, map_entries. simpl.
  by destruct (plugin_get_callbacks p) as [e|[d|]].
Qed.

(** The dispatcher looks at an entry's priority only: changing the entries
    in a way that keeps their priorities changes the list returned in the
    same way, and the log not at all. *)
Lemma get_callbacks_map_app (g : callable → callable) (BLACS : App) name
    (st : module_state) :
  (∀ c, priority_key (g c) = priority_key c) →
  get_callbacks (map_app g BLACS) name st
  = (inr (g <$> list_sort priority_key (entries_for name (plugins_values BLACS))),
     (get_callbacks BLACS name st).2).
Proof.
  intros Hg. rewrite !get_callbacks_run. simpl. unfold plugins_values, map_app. simpl.
  assert (He : ∀ l : list (string * plugin),
            entries_for name (prod_map id (map_entries g) <$> l).*2
            = g <$> entries_for name l.*2).
  { unfold entries_for. induction l as [|[k p] ps IH]; [done|].
    rewrite !fmap_cons, !omap_cons_option_list, fmap_app, IH. simpl.
    rewrite entry_of_map_entries. by destruct (entry_of name p). }
  assert (Hl : ∀ l : list (string * plugin),
            omap error_of (prod_map id (map_entries g) <$> l).*2 = omap error_of l.*2).
  { induction l as [|[k p] ps IH]; [done|].
    rewrite !fmap_cons, !omap_cons_option_list, IH. simpl.
    by rewrite error_of_map_entries. }
  by rewrite He, Hl, list_sort_fmap.
Qed.

(** X7. The decorator is optional for a handler of default priority:
    putting [@callback()] on every registered handler that has no priority
    of its own changes neither the order in which the dispatcher returns the
    handlers nor what it logs, and a handler so decorated runs as the
    handler itself. *)
Theorem default_decorator_transparent (BLACS : App) name (st : module_state) :
  (∃ callbacks st',
     get_callbacks BLACS name st = (inr callbacks, st')
     ∧ get_callbacks (map_app decorate_default BLACS) name st
       = (inr (decorate_default <$> callbacks), st'))
  ∧ (∀ c : callable, priority_key (decorate_default c) = priority_key c)
  ∧ (∀ (c : callable) args kwargs w,
       call (decorate_default c) args kwargs w = call c args kwargs w).
Proof.
  assert (Hkey : ∀ c : callable, priority_key (decorate_default c) = priority_key c).
  { intros c. unfold decorate_default, priority_key.
    by destruct (getattr_priority c) eqn:Hc; [rewrite Hc|]. }
  split; [|split; [done|]].
  - eexists _, _. split; [apply get_callbacks_run|].
    rewrite get_callbacks_map_app by done. by rewrite get_callbacks_run.
  - intros c args kwargs w. unfold decorate_default.
    by destruct (getattr_priority c).
Qed.
End DecoratorFacts.

(** ** [BasePlugin] *)
Section BasePluginFacts.
Context {Settings Menu Notifications Host : Type}.

Abbreviation BasePlugin := (@BasePlugin.t Settings Menu Notifications Host).

(** X8. The three setters the host calls on a plugin write one attribute
    each: they commute with one another, none of them touches
    [initial_settings], a second call of a setter overrides the first, and
    [close] leaves the plugin as it is, every attribute included. After [__init__] and the three calls, in any
    order, the plugin holds what it was given. *)
Theorem BasePlugin_setters (self : BasePlugin) (settings : Settings) (m m' : Menu)
    (n : Notifications) (host : Host) :
  BasePlugin.set_notification_instances (BasePlugin.set_menu_instance self m) n
    = BasePlugin.set_menu_instance (BasePlugin.set_notification_instances self n) m
  ∧ BasePlugin.plugin_setup_complete (BasePlugin.set_menu_instance self m) host
    = BasePlugin.set_menu_instance (BasePlugin.plugin_setup_complete self host) m
  ∧ BasePlugin.plugin_setup_complete (BasePlugin.set_notification_instances self n) host
    = BasePlugin.set_notification_instances (BasePlugin.plugin_setup_complete self host) n
  ∧ BasePlugin.set_menu_instance (BasePlugin.set_menu_instance self m) m'
    = BasePlugin.set_menu_instance self m'
  ∧ BasePlugin.close self = self
  ∧ BasePlugin.initial_settings
      (BasePlugin.close
         (BasePlugin.plugin_setup_complete
            (BasePlugin.set_notification_instances
               (BasePlugin.set_menu_instance self m) n) host))
    = BasePlugin.initial_settings self
  ∧ BasePlugin.plugin_setup_complete
      (BasePlugin.set_notification_instances
         (BasePlugin.set_menu_instance (BasePlugin.__init__ settings) m) n) host
    = BasePlugin.mk (Some m) (Some n) settings (Some host).
Proof. by destruct self. Qed.
End BasePluginFacts.

(** ** The registry *)
Section RegistryFacts.
Context {value World PyModule : Type}.
Variable os_listdir : list string.
Variable os_path_isdir : string → bool.
Variable import_module : string → result PyModule.
Variable parse_boolean : string → option bool.

Import Registry.

Abbreviation module_state := (module_state PyModule).
Abbreviation is_candidate := (Registry.is_candidate os_path_isdir).
Abbreviation discover := (Registry.discover os_path_isdir import_module parse_boolean).
Abbreviation startup := (Registry.startup os_listdir os_path_isdir import_module parse_boolean).
Abbreviation activated := (Registry.activated parse_boolean).
Abbreviation attempted := (Registry.attempted os_path_isdir parse_boolean).
Abbreviation loaded := (Registry.loaded os_path_isdir import_module parse_boolean).
Abbreviation load_all := (Registry.load_all os_path_isdir import_module parse_boolean).
Abbreviation import_failure := (Registry.import_failure os_path_isdir import_module parse_boolean).
Abbreviation calls_for := (Registry.calls_for os_path_isdir).
Abbreviation calls_of := (Registry.calls_of os_path_isdir).
Abbreviation after_loop := (Registry.after_loop os_path_isdir import_module parse_boolean).
Abbreviation visited := (Registry.visited os_path_isdir).
Abbreviation boolean_strings := (Registry.boolean_strings parse_boolean).
Abbreviation switches_are_booleans :=
  (Registry.switches_are_booleans os_listdir os_path_isdir parse_boolean).
Abbreviation prepared := (@Registry.prepared PyModule).
Abbreviation initial_state := (@Registry.initial_state PyModule).

Implicit Types (st : module_state) (opts : gmap string string) (m k : string)
  (cfg : gmap string (gmap string string)) (names : list string).

(** *** The section as a map *)

Lemma items_contains opts m : m ∈ (map_to_list opts).*1 ↔ is_Some (opts !! m).
Proof.
  rewrite list_elem_of_fmap. split.
  - intros ([k v] & -> & Hkv). apply elem_of_map_to_list in Hkv. eauto.
  - intros [v Hv]. exists (m, v). split; [done|]. by apply elem_of_map_to_list.
Qed.

Lemma register_lookup_self m opts : register m opts !! m = Some (switch_of opts m).
Proof.
  unfold register, switch_of. destruct (opts !! m) as [v|] eqn:Hm; simpl.
  - done.
  - by rewrite lookup_insert_eq.
Qed.

Lemma register_lookup_ne m k opts : m ≠ k → register m opts !! k = opts !! k.
Proof.
  intros Hne. unfold register. destruct (opts !! m); [done|].
  by rewrite lookup_insert_ne.
Qed.

Lemma register_lookup_Some m k opts (v : string) :
  opts !! k = Some v → register m opts !! k = Some v.
Proof.
  intros Hk. destruct (decide (m = k)) as [->|Hne].
  - rewrite register_lookup_self. unfold switch_of. by rewrite Hk.
  - by rewrite register_lookup_ne.
Qed.

Lemma register_present m opts : is_Some (opts !! m) → register m opts = opts.
Proof. intros [v Hv]. unfold register. by rewrite Hv. Qed.

Lemma switch_of_register m k opts : switch_of (register m opts) k = switch_of opts k.
Proof.
  destruct (decide (m = k)) as [->|Hne].
  - unfold switch_of at 1. by rewrite register_lookup_self.
  - unfold switch_of. by rewrite register_lookup_ne.
Qed.

Lemma register_all_lookup_Some names : ∀ opts k (v : string),
  opts !! k = Some v → register_all names opts !! k = Some v.
Proof.
  induction names as [|m names IH]; intros opts k v Hk; [done|].
  simpl. apply IH. by apply register_lookup_Some.
Qed.

Lemma register_all_lookup_in names : ∀ opts k,
  k ∈ names → register_all names opts !! k = Some (switch_of opts k).
Proof.
  induction names as [|m names IH]; intros opts k Hk; [by apply elem_of_nil in Hk|].
  simpl. destruct (decide (m = k)) as [->|Hne].
  - apply register_all_lookup_Some, register_lookup_self.
  - apply elem_of_cons in Hk as [?|Hk]; [congruence|].
    by rewrite IH, switch_of_register.
Qed.

Lemma register_all_lookup_notin names : ∀ opts k,
  k ∉ names → register_all names opts !! k = opts !! k.
Proof.
  induction names as [|m names IH]; intros opts k Hk; [done|].
  apply not_elem_of_cons in Hk as [Hne Hk].
  simpl. rewrite IH by done. by apply register_lookup_ne.
Qed.

(** *** One iteration *)

Lemma configured_configured cfg1 cfg2 (cs1 cs2 : list config_call) st :
  configured cfg2 cs2 (configured cfg1 cs1 st) = configured cfg2 (cs1 ++ cs2) st.
Proof. unfold configured. simpl. by rewrite app_assoc. Qed.

(** What one iteration does, from a state in which the section exists. A
    name that is not a candidate is skipped. For a candidate the store is
    read, and written when the name is new; then the switch is read, and
    the iteration raises when it is not a boolean. *)
Lemma discover_run m opts st :
  exp_config st !! PLUGINS_SECTION = Some opts →
  discover m st =
    if is_candidate m then
      match parse_boolean (switch_of opts m) with
      | None => (inl (ValueError ("Not a boolean: " +:+ switch_of opts m)), visited m opts st)
      | Some false => (inr (), visited m opts st)
      | Some true =>
          match import_module (dotted m) with
          | inl e =>
              (inr (),
               logged [LogRecord "ERROR" ("Could not import plugin '" +:+ m +:+ "'. Skipping.") e]
                 (imported [dotted m] (visited m opts st)))
          | inr module =>
              (inr (),
               with_modules (<[m := module]> (modules st))
                 (imported [dotted m] (visited m opts st)))
          end
      end
    else (inr (), st).
Proof.
  intros Hsec. unfold Registry.discover, Registry.visited, Registry.calls_for.
  destruct (is_candidate m) eqn:Hc; [|done].
  unfold bind at 1. unfold exp_config_items at 1. unfold LabConfig.items. rewrite Hsec.
  unfold bind at 1.
  destruct (opts !! m) as [v|] eqn:Hm.
  - rewrite bool_decide_eq_true_2 by (apply items_contains; eauto). simpl.
    unfold ret at 1. unfold bind at 1.
    unfold exp_config_getboolean at 1, LabConfig.getboolean. simpl.
    rewrite Hsec, Hm. unfold switch_of. rewrite Hm. simpl.
    rewrite register_present by eauto.
    rewrite !(insert_id _ _ _ Hsec), !configured_configured. simpl.
    by destruct (parse_boolean v) as [[|]|].
  - rewrite bool_decide_eq_false_2
      by (rewrite items_contains, Hm; by intros [? ?]).
    simpl. unfold exp_config_set at 1, LabConfig.set. simpl. rewrite Hsec.
    unfold bind at 1.
    unfold exp_config_getboolean at 1, LabConfig.getboolean. simpl.
    rewrite !lookup_insert_eq.
    unfold switch_of, register. rewrite Hm. simpl.
    rewrite !configured_configured. simpl.
    by destruct (parse_boolean _) as [[|]|].
Qed.

(** *** The loop *)

Lemma after_loop_nil opts0 opts st :
  exp_config st !! PLUGINS_SECTION = Some opts → after_loop opts0 opts [] st = st.
Proof.
  intros Hsec. unfold Registry.after_loop. destruct st as [cfg cs ms ic lg].
  simpl in *. by rewrite (insert_id _ _ _ Hsec), !app_nil_r.
Qed.

Lemma filter_candidates_cons m names :
  filter (λ m, is_candidate m) (m :: names)
  = if is_candidate m then m :: filter (λ m, is_candidate m) names
    else filter (λ m, is_candidate m) names.
Proof. rewrite filter_cons. destruct (is_candidate m); by case_decide. Qed.

Lemma filter_attempted_cons opts0 m names :
  filter (λ m, attempted opts0 m) (m :: names)
  = if attempted opts0 m then m :: filter (λ m, attempted opts0 m) names
    else filter (λ m, attempted opts0 m) names.
Proof. rewrite filter_cons. destruct (attempted opts0 m); by case_decide. Qed.

(** Visiting [m] and then running the loop on [names] is running the loop
    on [m :: names]. *)
Lemma after_loop_cons opts0 opts m names st st1 :
  exp_config st1 = (if is_candidate m
                    then <[PLUGINS_SECTION := register m opts]> (exp_config st)
                    else exp_config st) →
  config_calls st1 = config_calls st ++ calls_for m opts →
  modules st1 = match loaded opts0 m with
                | Some module => <[m := module]> (modules st)
                | None => modules st
                end →
  import_calls st1 = import_calls st ++ (if attempted opts0 m then [dotted m] else []) →
  logger st1 = logger st ++ option_list (import_failure opts0 m) →
  after_loop opts0 (if is_candidate m then register m opts else opts) names st1
  = after_loop opts0 opts (m :: names) st.
Proof.
  intros Hcfg Hcalls Hmods Himps Hlog. unfold Registry.after_loop.
  rewrite Hcfg, Hcalls, Hmods, Himps, Hlog.
  rewrite filter_candidates_cons, filter_attempted_cons, omap_cons_option_list.
  f_equal.
  - destruct (is_candidate m); [|done]. by rewrite insert_insert_eq.
  - simpl. by rewrite app_assoc.
  - rewrite <- app_assoc. f_equal. by destruct (attempted opts0 m).
  - by rewrite app_assoc.
Qed.

(** When the switches of the listed candidates are booleans the loop runs
    to its end, and ends in [after_loop]. *)
Lemma loop_run opts0 names : ∀ opts st,
  exp_config st !! PLUGINS_SECTION = Some opts →
  (∀ m, switch_of opts m = switch_of opts0 m) →
  (∀ m, m ∈ names → is_candidate m = true →
        is_Some (parse_boolean (switch_of opts0 m))) →
  foldM (λ _ m, discover m) () names st = (inr (), after_loop opts0 opts names st).
Proof.
  induction names as [|m names IH]; intros opts st Hsec Hsw Hwf.
  - simpl. unfold ret. by rewrite after_loop_nil.
  - cbn [foldM]. unfold bind at 1. rewrite (discover_run m opts st Hsec).
    assert (Hwf' : ∀ m', m' ∈ names → is_candidate m' = true →
                         is_Some (parse_boolean (switch_of opts0 m'))).
    { intros m' Hm'. apply Hwf. by right. }
    destruct (is_candidate m) eqn:Hc.
    + destruct (Hwf m) as [b Hb]; [left | done |].
      assert (Hsw' : ∀ m', switch_of (register m opts) m' = switch_of opts0 m').
      { intros m'. by rewrite switch_of_register. }
      rewrite Hsw, Hb.
      destruct b; [destruct (import_module (dotted m)) as [e|module] eqn:Himp|].
      all: rewrite (IH (register m opts)); [| by apply lookup_insert_eq | done | done].
      all: f_equal.
      all: generalize (after_loop_cons opts0 opts m names st); rewrite Hc;
             intros Hcons; apply Hcons; clear Hcons.
      all: unfold Registry.loaded, Registry.import_failure, Registry.attempted,
             Registry.activated.
      all: rewrite ?Hc, ?Hb, ?Himp; simpl; by rewrite ?app_nil_r.
    + rewrite (IH opts) by done. f_equal.
      generalize (after_loop_cons opts0 opts m names st); rewrite Hc;
        intros Hcons; apply Hcons; clear Hcons.
      all: unfold Registry.loaded, Registry.import_failure, Registry.attempted,
             Registry.calls_for.
      all: rewrite ?Hc; simpl; by rewrite ?app_nil_r.
Qed.

(** The code before the loop makes sure the section exists. *)
Lemma startup_prepare cfg :
  startup (initial_state cfg)
  = foldM (λ _ m, discover m) () os_listdir (prepared cfg).
Proof.
  unfold Registry.startup, Registry.prepared, section_of.
  unfold bind at 1. unfold exp_config_has_section, LabConfig.has_section. simpl.
  destruct (cfg !! PLUGINS_SECTION) as [opts|] eqn:Hsec; simpl.
  - unfold bind at 1, ret at 1. by rewrite (insert_id _ _ _ Hsec).
  - unfold bind at 1, exp_config_add_section, LabConfig.add_section, LabConfig.has_section.
    simpl. rewrite Hsec. simpl. by rewrite configured_configured.
Qed.

Lemma prepared_section cfg :
  exp_config (prepared cfg) !! PLUGINS_SECTION = Some (section_of cfg).
Proof. apply lookup_insert_eq. Qed.

Lemma switch_of_boolean cfg m :
  boolean_strings → switches_are_booleans cfg →
  m ∈ os_listdir → is_candidate m = true →
  is_Some (parse_boolean (switch_of (section_of cfg) m)).
Proof.
  intros [HT HF] Hwf Hm Hc. unfold switch_of.
  destruct (section_of cfg !! m) as [v|] eqn:Hv; simpl.
  - by apply (Hwf m v).
  - case_bool_decide; simpl; rewrite ?HT, ?HF; eauto.
Qed.

(** When the stored switches of the listed candidates are booleans, the
    module-level code runs to its end. *)
Lemma startup_run cfg :
  boolean_strings → switches_are_booleans cfg →
  startup (initial_state cfg)
  = (inr (), after_loop (section_of cfg) (section_of cfg) os_listdir (prepared cfg)).
Proof.
  intros Hbs Hwf. rewrite startup_prepare.
  apply loop_run; [apply prepared_section | done |].
  intros m Hm Hc. by apply switch_of_boolean.
Qed.

(** *** The calls made on the store *)

Lemma calls_for_section m opts :
  Forall (λ c, call_section c = PLUGINS_SECTION) (calls_for m opts).
Proof.
  unfold Registry.calls_for. destruct (is_candidate m); [|constructor].
  destruct (opts !! m); repeat constructor.
Qed.

Lemma calls_of_section names : ∀ opts,
  Forall (λ c, call_section c = PLUGINS_SECTION) (calls_of names opts).
Proof.
  induction names as [|m names IH]; intros opts; simpl; [constructor|].
  apply Forall_app. split; [apply calls_for_section | apply IH].
Qed.

Lemma written_calls_for m opts :
  omap written_option (calls_for m opts)
  = if is_candidate m then match opts !! m with Some _ => [] | None => [m] end else [].
Proof.
  unfold Registry.calls_for. destruct (is_candidate m); [|done].
  by destruct (opts !! m).
Qed.

(** Only candidates that the section does not have yet are written. *)
Lemma written_calls_of_inv names : ∀ opts k,
  k ∈ omap written_option (calls_of names opts) →
  k ∈ names ∧ is_candidate k = true ∧ opts !! k = None.
Proof.
  induction names as [|m names IH]; intros opts k Hk; simpl in Hk.
  { by apply elem_of_nil in Hk. }
  rewrite omap_app, written_calls_for in Hk. apply elem_of_app in Hk as [Hk|Hk].
  - destruct (is_candidate m) eqn:Hc; [|by apply elem_of_nil in Hk].
    destruct (opts !! m) eqn:Hm; [by apply elem_of_nil in Hk|].
    apply list_elem_of_singleton in Hk as ->. repeat split; [left | done..].
  - apply IH in Hk as (Hin & Hc & Hnone). repeat split; [by right | done |].
    destruct (is_candidate m); [|done].
    destruct (opts !! k) as [v|] eqn:Hv; [|done].
    by rewrite (register_lookup_Some m k opts v) in Hnone.
Qed.

(** No option is written twice. *)
Lemma written_calls_of_NoDup names : ∀ opts,
  NoDup (omap written_option (calls_of names opts)).
Proof.
  induction names as [|m names IH]; intros opts; simpl; [constructor|].
  rewrite omap_app, written_calls_for. apply NoDup_app. repeat split; [| |apply IH].
  - destruct (is_candidate m); [|constructor].
    destruct (opts !! m); [constructor|]. apply NoDup_singleton.
  - intros k Hk Hk'.
    destruct (is_candidate m) eqn:Hc; [|by apply elem_of_nil in Hk].
    destruct (opts !! m) eqn:Hm; [by apply elem_of_nil in Hk|].
    apply list_elem_of_singleton in Hk as ->.
    apply written_calls_of_inv in Hk' as (_ & _ & Hnone).
    by rewrite register_lookup_self in Hnone.
Qed.

(** A [set] call is made on the plugins section, with the default of the
    option it writes. *)
Lemma set_calls_of_inv names : ∀ opts (s k v : string),
  CallSet s k v ∈ calls_of names opts →
  s = PLUGINS_SECTION ∧ v = str_bool (bool_decide (k ∈ default_plugins))
  ∧ k ∈ omap written_option (calls_of names opts).
Proof.
  induction names as [|m names IH]; intros opts s k v Hin; simpl in *.
  { by apply elem_of_nil in Hin. }
  rewrite omap_app. apply elem_of_app in Hin as [Hin|Hin].
  - rewrite written_calls_for. unfold Registry.calls_for in Hin.
    destruct (is_candidate m); [|by apply elem_of_nil in Hin].
    destruct (opts !! m); simpl in Hin.
    + apply elem_of_cons in Hin as [?|Hin]; [done|].
      apply list_elem_of_singleton in Hin. done.
    + apply elem_of_cons in Hin as [?|Hin]; [done|].
      apply elem_of_cons in Hin as [Heq|Hin]; [|by apply list_elem_of_singleton in Hin].
      injection Heq as -> -> ->. repeat split. apply elem_of_app. left. left.
  - apply IH in Hin as (-> & -> & Hin). repeat split. apply elem_of_app. by right.
Qed.

(** The loop does not create sections. *)
Lemma calls_of_no_add_section names : ∀ opts (s : string),
  CallAddSection s ∉ calls_of names opts.
Proof.
  induction names as [|m names IH]; intros opts s Hin; simpl in Hin.
  { by apply elem_of_nil in Hin. }
  apply elem_of_app in Hin as [Hin|Hin]; [|by apply IH in Hin].
  unfold Registry.calls_for in Hin.
  destruct (is_candidate m); [|by apply elem_of_nil in Hin].
  destruct (opts !! m); simpl in Hin;
    repeat (apply elem_of_cons in Hin as [?|Hin]; [done|]);
    by apply elem_of_nil in Hin.
Qed.

(** Every listed candidate that the section does not have yet is written. *)
Lemma set_calls_of_intro names : ∀ opts m,
  m ∈ names → is_candidate m = true → opts !! m = None →
  CallSet PLUGINS_SECTION m (str_bool (bool_decide (m ∈ default_plugins)))
    ∈ calls_of names opts.
Proof.
  induction names as [|x names IH]; intros opts m Hin Hc Hnone.
  { by apply elem_of_nil in Hin. }
  simpl. apply elem_of_app. destruct (decide (x = m)) as [->|Hne].
  - left. unfold Registry.calls_for. rewrite Hc, Hnone. simpl. right. left.
  - right. apply elem_of_cons in Hin as [?|Hin]; [congruence|].
    apply IH; [done..|].
    destruct (is_candidate x); [|done]. by rewrite register_lookup_ne.
Qed.

(** When the section has every listed candidate, the loop writes nothing
    and leaves the section as it is. *)
Lemma calls_of_no_write names : ∀ opts,
  (∀ m, m ∈ names → is_candidate m = true → is_Some (opts !! m)) →
  Forall (λ c, is_write c = false) (calls_of names opts).
Proof.
  induction names as [|m names IH]; intros opts Hall; simpl; [constructor|].
  apply Forall_app. split.
  - unfold Registry.calls_for. destruct (is_candidate m) eqn:Hc; [|constructor].
    destruct (Hall m) as [v ->]; [left | done |]. repeat constructor.
  - apply IH. intros k Hk Hc.
    destruct (Hall k) as [v Hv]; [by right | done |].
    destruct (is_candidate m); [|eauto]. rewrite (register_lookup_Some _ _ _ v); eauto.
Qed.

Lemma register_all_present names : ∀ opts,
  (∀ m, m ∈ names → is_Some (opts !! m)) → register_all names opts = opts.
Proof.
  induction names as [|m names IH]; intros opts Hall; [done|].
  simpl. rewrite register_present by (apply Hall; left).
  apply IH. intros k Hk. apply Hall. by right.
Qed.

(** *** The result mapping *)

Lemma load_all_lookup opts0 names : ∀ (ms : gmap string PyModule) k,
  load_all opts0 names ms !! k
  = if decide (k ∈ names)
    then match loaded opts0 k with Some module => Some module | None => ms !! k end
    else ms !! k.
Proof.
  induction names as [|x names IH]; intros ms k.
  { unfold Registry.load_all. cbn [foldl].
    case_decide as Hin; [by apply elem_of_nil in Hin | done]. }
  unfold Registry.load_all in *. cbn [foldl]. rewrite IH.
  destruct (decide (x = k)) as [->|Hne].
  - rewrite (decide_True (P := k ∈ k :: names)) by left.
    destruct (loaded opts0 k) as [module|] eqn:Hl.
    + rewrite lookup_insert_eq. by case_decide.
    + by case_decide.
  - assert (Hk : match loaded opts0 x with
                 | Some module => <[x:=module]> ms
                 | None => ms
                 end !! k = ms !! k).
    { destruct (loaded opts0 x); [by rewrite lookup_insert_ne | done]. }
    rewrite Hk.
    destruct (decide (k ∈ names)) as [Hin|Hin].
    + by rewrite decide_True by by right.
    + rewrite decide_False; [done|]. by intros [?|?]%elem_of_cons.
Qed.

(** *** Whatever the outcome *)

(** The store and the call record after one iteration, raised or not. *)
Lemma discover_effect m opts st :
  exp_config st !! PLUGINS_SECTION = Some opts →
  exp_config (discover m st).2
    = (if is_candidate m
       then <[PLUGINS_SECTION := register m opts]> (exp_config st)
       else exp_config st)
  ∧ config_calls (discover m st).2 = config_calls st ++ calls_for m opts.
Proof.
  intros Hsec. rewrite (discover_run m opts st Hsec).
  destruct (is_candidate m) eqn:Hc.
  - destruct (parse_boolean _) as [[|]|]; [destruct (import_module _)|..]; done.
  - unfold Registry.calls_for. rewrite Hc. simpl. by rewrite app_nil_r.
Qed.

(** The loop, run to its end or to a raise, has visited a prefix of the
    listing and made a prefix of the calls of a full run. *)
Lemma loop_any names : ∀ opts st,
  exp_config st !! PLUGINS_SECTION = Some opts →
  ∃ pre post cs rest,
    names = pre ++ post
    ∧ calls_of names opts = cs ++ rest
    ∧ exp_config (foldM (λ _ m, discover m) () names st).2
      = <[PLUGINS_SECTION := register_all (filter (λ m, is_candidate m) pre) opts]>
          (exp_config st)
    ∧ config_calls (foldM (λ _ m, discover m) () names st).2 = config_calls st ++ cs.
Proof.
  induction names as [|m names IH]; intros opts st Hsec.
  { exists [], [], [], []. simpl. by rewrite (insert_id _ _ _ Hsec), app_nil_r. }
  destruct (discover_effect m opts st Hsec) as [Hcfg Hcalls].
  cbn [foldM]. unfold bind at 1. unfold bind at 1.
  destruct (discover m st) as [[e|[]] st1] eqn:Hd; simpl in Hcfg, Hcalls.
  - exists [m], names, (calls_for m opts),
      (calls_of names (if is_candidate m then register m opts else opts)).
    simpl. rewrite Hcfg, Hcalls, filter_candidates_cons.
    repeat split. destruct (is_candidate m); [done|].
    simpl. by rewrite (insert_id _ _ _ Hsec).
  - destruct (IH (if is_candidate m then register m opts else opts) st1)
      as (pre & post & cs & rest & -> & Hcs & Hcfg' & Hcalls').
    { rewrite Hcfg. destruct (is_candidate m); [apply lookup_insert_eq | done]. }
    exists (m :: pre), post, (calls_for m opts ++ cs), rest.
    rewrite Hcfg', Hcalls', Hcfg, Hcalls, filter_candidates_cons.
    simpl. rewrite Hcs, !app_assoc. repeat split.
    destruct (is_candidate m); [|done]. by rewrite insert_insert_eq.
Qed.

(** *** Discovery as a whole *)

Lemma default_plugins_spelled m :
  str_bool (bool_decide (m ∈ default_plugins))
  = if bool_decide (m ∈ ["connection_table"; "general"; "theme"]) then "True" else "False".
Proof. done. Qed.

(** The section after a full run of the module-level code. *)
Lemma after_startup_section cfg :
  exp_config (after_loop (section_of cfg) (section_of cfg) os_listdir (prepared cfg))
    !! PLUGINS_SECTION
  = Some (register_all (filter (λ m, is_candidate m) os_listdir) (section_of cfg)).
Proof. apply lookup_insert_eq. Qed.

Lemma listed_candidate m :
  m ∈ os_listdir → is_candidate m = true → m ∈ filter (λ m, is_candidate m) os_listdir.
Proof. intros Hm Hc. apply list_elem_of_filter. split; [by rewrite Hc | done]. Qed.

(** C7. Let the store read back the two strings written for booleans, and
    let the switches it already holds for the listed candidates be booleans.
    Then discovery runs to its end, and: every listed candidate that was not
    a key of the [BLACS/plugins] section is written there, with the value
    True when its name is connection_table, general or theme and False
    otherwise; the store is written for such names only, once each; the
    keys that were there keep their values; and running discovery again on
    the resulting store writes nothing and leaves the store as it is. *)
Theorem discovery_registers_new_modules cfg :
  boolean_strings → switches_are_booleans cfg →
  ∃ st' opts',
    startup (initial_state cfg) = (inr (), st')
    ∧ exp_config st' !! PLUGINS_SECTION = Some opts'
    ∧ (∀ m, m ∈ os_listdir → is_candidate m = true → section_of cfg !! m = None →
         opts' !! m
           = Some (if bool_decide (m ∈ ["connection_table"; "general"; "theme"])
                   then "True" else "False")
         ∧ CallSet PLUGINS_SECTION m
             (if bool_decide (m ∈ ["connection_table"; "general"; "theme"])
              then "True" else "False") ∈ config_calls st')
    ∧ (∀ s k v, CallSet s k v ∈ config_calls st' →
         s = PLUGINS_SECTION ∧ k ∈ os_listdir ∧ is_candidate k = true
         ∧ section_of cfg !! k = None
         ∧ v = if bool_decide (k ∈ ["connection_table"; "general"; "theme"])
               then "True" else "False")
    ∧ NoDup (omap written_option (config_calls st'))
    ∧ (∀ k v, section_of cfg !! k = Some v → opts' !! k = Some v)
    ∧ ∃ st'',
        startup (initial_state (exp_config st')) = (inr (), st'')
        ∧ exp_config st'' = exp_config st'
        ∧ Forall (λ c, is_write c = false) (config_calls st'').
Proof.
  intros Hbs Hwf. eexists _, _. split; [by apply startup_run|].
  split; [apply after_startup_section|].
  set (opts0 := section_of cfg).
  set (opts' := register_all (filter (λ m, is_candidate m) os_listdir) opts0).
  assert (Hcalls : ∀ c,
            c ∈ config_calls (after_loop opts0 opts0 os_listdir (prepared cfg)) →
            (c = CallHasSection PLUGINS_SECTION ∨ c = CallAddSection PLUGINS_SECTION)
            ∨ c ∈ calls_of os_listdir opts0).
  { intros c Hc. simpl in Hc. apply elem_of_cons in Hc as [->|Hc]; [by left; left|].
    apply elem_of_app in Hc as [Hc|Hc]; [|by right].
    destruct (cfg !! PLUGINS_SECTION); [by apply elem_of_nil in Hc|].
    apply list_elem_of_singleton in Hc as ->. by left; right. }
  split; [|split; [|split; [|split]]].
  - intros m Hm Hc Hnone. rewrite <- default_plugins_spelled. split.
    + unfold opts'. rewrite register_all_lookup_in by by apply listed_candidate.
      unfold switch_of. fold opts0. by rewrite Hnone.
    + simpl. right. apply elem_of_app. right. by apply set_calls_of_intro.
  - intros s k v [[?|?]|Hin]%Hcalls; [done..|].
    apply set_calls_of_inv in Hin as (-> & -> & Hin).
    apply written_calls_of_inv in Hin as (? & ? & ?). by rewrite default_plugins_spelled.
  - simpl. assert (Hnil : omap written_option
                            match cfg !! PLUGINS_SECTION with
                            | Some _ => []
                            | None => [CallAddSection PLUGINS_SECTION]
                            end = []) by by destruct (cfg !! PLUGINS_SECTION).
    rewrite omap_app, Hnil. apply written_calls_of_NoDup.
  - intros k v Hk. by apply register_all_lookup_Some.
  - set (cfg' := exp_config (after_loop opts0 opts0 os_listdir (prepared cfg))).
    assert (Hsec' : cfg' !! PLUGINS_SECTION = Some opts') by apply after_startup_section.
    assert (Hopts' : section_of cfg' = opts') by (unfold section_of; by rewrite Hsec').
    assert (Hall : ∀ m, m ∈ filter (λ m, is_candidate m) os_listdir →
                        opts' !! m = Some (switch_of opts0 m)).
    { intros m Hm. by apply register_all_lookup_in. }
    assert (Hwf' : switches_are_booleans cfg').
    { intros m v Hm Hc. rewrite Hopts', (Hall m) by by apply listed_candidate.
      intros [= <-]. by apply switch_of_boolean. }
    eexists. split; [by apply startup_run|]. split.
    + simpl. rewrite Hopts', insert_insert_eq.
      rewrite register_all_present by (intros m Hm; rewrite (Hall m Hm); eauto).
      by apply insert_id.
    + simpl. rewrite Hsec'. simpl. constructor; [done|].
      rewrite Hopts'. apply calls_of_no_write.
      intros m Hm Hc. rewrite (Hall m) by by apply listed_candidate. eauto.
Qed.

(** What [getboolean] answers for a listed candidate after a full run. *)
Lemma after_startup_getboolean cfg m (b : bool) :
  m ∈ os_listdir → is_candidate m = true →
  parse_boolean (switch_of (section_of cfg) m) = Some b →
  LabConfig.getboolean parse_boolean
    (exp_config (after_loop (section_of cfg) (section_of cfg) os_listdir (prepared cfg)))
    PLUGINS_SECTION m = inr b.
Proof.
  intros Hm Hc Hb. unfold LabConfig.getboolean.
  rewrite after_startup_section, register_all_lookup_in by by apply listed_candidate.
  by rewrite Hb.
Qed.

(** C8. Under the same two assumptions on the store, discovery runs to its
    end, and for every listed candidate [m] the store answers [getboolean]
    with a boolean [b] such that: [import_module] is called for [m] exactly
    when [b] is true; [m] is a key of [modules], with the imported module,
    exactly when [b] is true and the import returns; and when [b] is true and
    the import raises, an ERROR record with the name of [m] and the exception
    is logged and [m] is not a key of [modules], whatever the imports of the
    other names do. A name that is not a listed candidate is not imported. *)
Theorem discovery_imports_enabled_modules cfg :
  boolean_strings → switches_are_booleans cfg →
  ∃ st',
    startup (initial_state cfg) = (inr (), st')
    ∧ (∀ m, m ∈ os_listdir → is_candidate m = true →
         ∃ b : bool,
           LabConfig.getboolean parse_boolean (exp_config st') PLUGINS_SECTION m = inr b
           ∧ (dotted m ∈ import_calls st' ↔ b = true)
           ∧ (∀ module, modules st' !! m = Some module
                        ↔ b = true ∧ import_module (dotted m) = inr module)
           ∧ (∀ e, b = true → import_module (dotted m) = inl e →
                LogRecord "ERROR" ("Could not import plugin '" +:+ m +:+ "'. Skipping.") e
                  ∈ logger st'
                ∧ modules st' !! m = None))
    ∧ (∀ m, ¬ (m ∈ os_listdir ∧ is_candidate m = true) →
         (dotted m ∉ import_calls st') ∧ modules st' !! m = None).
Proof.
  intros Hbs Hwf. eexists. split; [by apply startup_run|].
  set (opts0 := section_of cfg).
  assert (Himp : ∀ m, dotted m ∈ import_calls (after_loop opts0 opts0 os_listdir (prepared cfg))
                      ↔ attempted opts0 m = true ∧ m ∈ os_listdir).
  { intros m. simpl. unfold dotted.
    rewrite (list_elem_of_fmap_inj (String.app "blacs.plugins.")), list_elem_of_filter.
    by rewrite Is_true_true. }
  assert (Hmod : ∀ m, modules (after_loop opts0 opts0 os_listdir (prepared cfg)) !! m
                      = if decide (m ∈ os_listdir) then loaded opts0 m else None).
  { intros m. simpl. rewrite load_all_lookup, lookup_empty.
    case_decide; [|done]. by destruct (loaded opts0 m). }
  split.
  - intros m Hm Hc.
    destruct (switch_of_boolean cfg m Hbs Hwf Hm Hc) as [b Hb]. fold opts0 in Hb.
    assert (Hatt : attempted opts0 m = b).
    { unfold Registry.attempted, Registry.activated. rewrite Hc, Hb. by destruct b. }
    exists b. split; [by apply after_startup_getboolean|].
    split; [rewrite Himp, Hatt; tauto|].
    rewrite Hmod, decide_True by done. unfold Registry.loaded. rewrite Hatt.
    split.
    + intros module. destruct b; [|split; [done | by intros [? ?]]].
      destruct (import_module (dotted m)) as [e|module'].
      * split; [done | by intros [_ ?]].
      * split; [by intros [= ->] | by intros [_ [= ->]]].
    + intros e -> He. rewrite He. split; [|done].
      simpl. apply list_elem_of_omap. exists m. split; [done|].
      unfold Registry.import_failure. by rewrite Hatt, He.
  - intros m Hno. split.
    + rewrite Himp. intros [Hatt Hm]. apply Hno. split; [done|].
      unfold Registry.attempted in Hatt. by apply andb_true_iff in Hatt as [? _].
    + rewrite Hmod. case_decide as Hm; [|done].
      unfold Registry.loaded, Registry.attempted.
      destruct (is_candidate m) eqn:Hc; [|done]. by destruct Hno.
Qed.

(** C9. Whether the module-level code runs to its end or raises: every call
    it makes on the store names the [BLACS/plugins] section; every section
    of another name is what it was; in the [BLACS/plugins] section the keys
    that were there keep their values; and the only calls that change the
    store are the creation of the section and the [set] of a listed
    candidate that was not a key. The dispatcher makes no call on the store
    and leaves it as it is. *)
Theorem config_store_frame cfg :
  (∀ s, s ≠ PLUGINS_SECTION →
        exp_config (startup (initial_state cfg)).2 !! s = cfg !! s)
  ∧ Forall (λ c, call_section c = PLUGINS_SECTION)
      (config_calls (startup (initial_state cfg)).2)
  ∧ (∀ k v, section_of cfg !! k = Some v →
        ∃ opts', exp_config (startup (initial_state cfg)).2 !! PLUGINS_SECTION = Some opts'
                 ∧ opts' !! k = Some v)
  ∧ (∀ c, c ∈ config_calls (startup (initial_state cfg)).2 → is_write c = true →
        (c = CallAddSection PLUGINS_SECTION ∧ cfg !! PLUGINS_SECTION = None)
        ∨ ∃ k, c = CallSet PLUGINS_SECTION k (str_bool (bool_decide (k ∈ default_plugins)))
               ∧ k ∈ os_listdir ∧ is_candidate k = true ∧ section_of cfg !! k = None)
  ∧ (∀ (BLACS : App value World) (name : string) st,
        exp_config (get_callbacks BLACS name st).2 = exp_config st
        ∧ config_calls (get_callbacks BLACS name st).2 = config_calls st).
Proof.
  rewrite startup_prepare.
  destruct (loop_any os_listdir (section_of cfg) (prepared cfg) (prepared_section cfg))
    as (pre & post & cs & rest & Hnames & Hcs & -> & ->).
  split; [|split; [|split; [|split]]].
  - intros s Hs. simpl. by rewrite !lookup_insert_ne.
  - simpl. constructor; [done|]. apply Forall_app. split.
    + destruct (cfg !! PLUGINS_SECTION); repeat constructor.
    + pose proof (calls_of_section os_listdir (section_of cfg)) as Hall.
      rewrite Hcs in Hall. by apply Forall_app in Hall as [? _].
  - intros k v Hk. eexists. split; [apply lookup_insert_eq|].
    by apply register_all_lookup_Some.
  - intros c Hc Hw. simpl in Hc.
    apply elem_of_cons in Hc as [->|Hc]; [done|].
    apply elem_of_app in Hc as [Hc|Hc].
    + left. destruct (cfg !! PLUGINS_SECTION); [by apply elem_of_nil in Hc|].
      by apply list_elem_of_singleton in Hc as ->.
    + right. assert (Hin : c ∈ calls_of os_listdir (section_of cfg)).
      { rewrite Hcs. apply elem_of_app. by left. }
      pose proof (calls_of_section os_listdir (section_of cfg)) as Hall.
      rewrite Forall_forall in Hall. specialize (Hall c Hin).
      destruct c as [s|s|s|s k v|s k]; try done.
      { by apply calls_of_no_add_section in Hin. }
      apply set_calls_of_inv in Hin as (-> & -> & Hin).
      apply written_calls_of_inv in Hin as (? & ? & ?). by exists k.
  - intros BLACS name st. pose proof (get_callbacks_frame BLACS name st). tauto.
Qed.

(** *** More on discovery *)

Lemma switch_of_register_all names : ∀ opts m,
  switch_of (register_all names opts) m = switch_of opts m.
Proof.
  induction names as [|x names IH]; intros opts m; [done|].
  simpl. by rewrite IH, switch_of_register.
Qed.

(** Names that are not candidates are passed over. *)
Lemma loop_no_candidates names : ∀ st,
  (∀ m, m ∈ names → is_candidate m = false) →
  foldM (λ _ m, discover m) () names st = (inr (), st).
Proof.
  induction names as [|m names IH]; intros st Hno; [done|].
  cbn [foldM]. unfold bind at 1. unfold Registry.discover at 1.
  rewrite (Hno m) by left. unfold ret at 1.
  apply IH. intros k Hk. apply Hno. by right.
Qed.

(** X15. In a directory without candidates (no entry, or only files and
    [__pycache__]) the module-level code returns after making sure that the
    section exists: it asks for the section, adds it when it is missing, and
    does nothing else; no name is registered, nothing is imported and
    nothing is logged. *)
Theorem startup_no_candidates cfg :
  (∀ m, m ∈ os_listdir → is_candidate m = false) →
  ∃ st',
    startup (initial_state cfg) = (inr (), st')
    ∧ exp_config st' = <[PLUGINS_SECTION := section_of cfg]> cfg
    ∧ config_calls st'
      = CallHasSection PLUGINS_SECTION
          :: match cfg !! PLUGINS_SECTION with
             | Some _ => []
             | None => [CallAddSection PLUGINS_SECTION]
             end
    ∧ modules st' = ∅ ∧ import_calls st' = [] ∧ logger st' = [].
Proof.
  intros Hno. eexists.
  split; [rewrite startup_prepare; by apply loop_no_candidates|].
  by repeat split.
Qed.

(** X16. Whether the module-level code returns or raises, the store has the
    [BLACS/plugins] section afterwards, the first call on the store is
    [has_section], and [add_section] is called exactly when the section was
    missing, so that it cannot fail. *)
Theorem startup_section_present cfg :
  is_Some (exp_config (startup (initial_state cfg)).2 !! PLUGINS_SECTION)
  ∧ head (config_calls (startup (initial_state cfg)).2)
    = Some (CallHasSection PLUGINS_SECTION)
  ∧ (CallAddSection PLUGINS_SECTION ∈ config_calls (startup (initial_state cfg)).2
     ↔ cfg !! PLUGINS_SECTION = None).
Proof.
  rewrite startup_prepare.
  destruct (loop_any os_listdir (section_of cfg) (prepared cfg) (prepared_section cfg))
    as (pre & post & cs & rest & Hnames & Hcs & -> & ->).
  split; [rewrite lookup_insert_eq; eauto|]. split; [done|].
  simpl. rewrite elem_of_cons, elem_of_app. split.
  - intros [?|[Hin|Hin]]; [done| |].
    + destruct (cfg !! PLUGINS_SECTION); [by apply elem_of_nil in Hin | done].
    + exfalso. apply (calls_of_no_add_section os_listdir (section_of cfg) PLUGINS_SECTION).
      rewrite Hcs. apply elem_of_app. by left.
  - intros ->. right. left. left.
Qed.

Lemma after_loop_section opts0 opts names st :
  exp_config (after_loop opts0 opts names st) !! PLUGINS_SECTION
  = Some (register_all (filter (λ m, is_candidate m) names) opts).
Proof. apply lookup_insert_eq. Qed.

(** The loop raises at the first candidate whose switch is not a boolean,
    after it has dealt with the names before it. *)
Lemma loop_raise opts0 pre m post opts st :
  exp_config st !! PLUGINS_SECTION = Some opts →
  (∀ k, switch_of opts k = switch_of opts0 k) →
  (∀ k, k ∈ pre → is_candidate k = true →
        is_Some (parse_boolean (switch_of opts0 k))) →
  is_candidate m = true →
  parse_boolean (switch_of opts0 m) = None →
  foldM (λ _ m, discover m) () (pre ++ m :: post) st
  = (inl (ValueError ("Not a boolean: " +:+ switch_of opts0 m)),
     visited m (register_all (filter (λ m, is_candidate m) pre) opts)
       (after_loop opts0 opts pre st)).
Proof.
  intros Hsec Hsw Hpre Hc Hbad.
  rewrite foldM_app. unfold bind at 1. rewrite (loop_run opts0 pre opts st) by done.
  cbn [foldM]. unfold bind at 1.
  rewrite (discover_run m _ _ (after_loop_section opts0 opts pre st)).
  by rewrite Hc, switch_of_register_all, Hsw, Hbad.
Qed.

(** Either every listed candidate has a boolean switch, or there is a first
    one that has not. *)
Lemma first_bad_switch opts0 names :
  (∀ m, m ∈ names → is_candidate m = true →
        is_Some (parse_boolean (switch_of opts0 m)))
  ∨ ∃ pre m post,
      names = pre ++ m :: post
      ∧ (∀ k, k ∈ pre → is_candidate k = true →
              is_Some (parse_boolean (switch_of opts0 k)))
      ∧ is_candidate m = true
      ∧ parse_boolean (switch_of opts0 m) = None.
Proof.
  induction names as [|x names IH].
  { left. intros m Hm. by apply elem_of_nil in Hm. }
  destruct (is_candidate x) eqn:Hc.
  - destruct (parse_boolean (switch_of opts0 x)) as [b|] eqn:Hx.
    + destruct IH as [Hall|(pre & m & post & -> & Hpre & Hm & Hbad)].
      * left. intros m [->|Hm]%elem_of_cons ?; [eauto | by apply Hall].
      * right. exists (x :: pre), m, post. repeat split; [|done..].
        intros k [->|Hk]%elem_of_cons ?; [eauto | by apply Hpre].
    + right. exists [], x, names. repeat split; [|done..].
      intros k Hk. by apply elem_of_nil in Hk.
  - destruct IH as [Hall|(pre & m & post & -> & Hpre & Hm & Hbad)].
    + left. intros m [->|Hm]%elem_of_cons ?; [congruence | by apply Hall].
    + right. exists (x :: pre), m, post. repeat split; [|done..].
      intros k [->|Hk]%elem_of_cons ?; [congruence | by apply Hpre].
Qed.

(** A switch that is not a boolean is a stored one. *)
Lemma bad_switch_stored cfg m :
  boolean_strings → parse_boolean (switch_of (section_of cfg) m) = None →
  section_of cfg !! m = Some (switch_of (section_of cfg) m).
Proof.
  intros [HT HF]. unfold switch_of.
  destruct (section_of cfg !! m) as [v|]; [done|]. simpl.
  case_bool_decide; simpl; by rewrite ?HT, ?HF.
Qed.

(** X9. The module-level code returns exactly when the switches stored for
    the listed candidates are booleans. When it raises, the exception is the
    [ValueError] of [getboolean] for a listed candidate whose stored switch
    is not a boolean: the guards in front of [add_section], [items], [set]
    and [getboolean] keep the store from raising for a missing or doubled
    section or a missing option. *)
Theorem startup_outcome cfg :
  boolean_strings →
  ((startup (initial_state cfg)).1 = inr () ↔ switches_are_booleans cfg)
  ∧ (∀ e, (startup (initial_state cfg)).1 = inl e →
       ∃ m v, m ∈ os_listdir ∧ is_candidate m = true
              ∧ section_of cfg !! m = Some v ∧ parse_boolean v = None
              ∧ e = ValueError ("Not a boolean: " +:+ v)).
Proof.
  intros Hbs.
  destruct (first_bad_switch (section_of cfg) os_listdir)
    as [Hall|(pre & m & post & Hnames & Hpre & Hc & Hbad)].
  - assert (Hwf : switches_are_booleans cfg).
    { intros m v Hm Hc Hv. specialize (Hall m Hm Hc).
      unfold switch_of in Hall. by rewrite Hv in Hall. }
    rewrite (startup_run cfg Hbs Hwf). simpl. split; [done|]. by intros e.
  - rewrite startup_prepare, Hnames.
    rewrite (loop_raise (section_of cfg) pre m post (section_of cfg))
      by (done || apply prepared_section).
    pose proof (bad_switch_stored cfg m Hbs Hbad) as Hstored.
    assert (Hin : m ∈ pre ++ m :: post).
    { apply elem_of_app. right. left. }
    simpl. split.
    + split; [done|]. intros Hwf.
      destruct (Hwf m _ Hin Hc Hstored) as [b Hb]. congruence.
    + intros e [= <-]. eauto 10.
Qed.

(** X10. Discovery stops at the first listed candidate whose stored switch
    is not a boolean. The names listed before it have been dealt with: the
    candidates among them are registered, and the imports made are theirs.
    The names listed after it are not looked at: nothing is registered or
    imported for them. *)
Theorem startup_stops_at_bad_switch cfg pre m post (v : string) :
  boolean_strings →
  os_listdir = pre ++ m :: post →
  (∀ k u, k ∈ pre → is_candidate k = true →
          section_of cfg !! k = Some u → is_Some (parse_boolean u)) →
  is_candidate m = true →
  section_of cfg !! m = Some v →
  parse_boolean v = None →
  ∃ st' opts',
    startup (initial_state cfg) = (inl (ValueError ("Not a boolean: " +:+ v)), st')
    ∧ exp_config st' !! PLUGINS_SECTION = Some opts'
    ∧ (∀ k, k ∈ pre → is_candidate k = true →
            opts' !! k = Some (switch_of (section_of cfg) k))
    ∧ (∀ k, k ∉ pre → opts' !! k = section_of cfg !! k)
    ∧ import_calls st'
      = (dotted <$> filter (λ k, attempted (section_of cfg) k) pre)
    ∧ (∀ k module, modules st' !! k = Some module → k ∈ pre).
Proof.
  intros Hbs Hnames Hpre Hc Hv Hbad.
  assert (Hsw : switch_of (section_of cfg) m = v) by (unfold switch_of; by rewrite Hv).
  assert (Hpre' : ∀ k, k ∈ pre → is_candidate k = true →
                       is_Some (parse_boolean (switch_of (section_of cfg) k))).
  { intros k Hk Hck. destruct Hbs as [HT HF]. unfold switch_of.
    destruct (section_of cfg !! k) as [u|] eqn:Hu; simpl; [by apply (Hpre k u)|].
    case_bool_decide; simpl; rewrite ?HT, ?HF; eauto. }
  eexists _, _. split.
  { rewrite startup_prepare, Hnames.
    rewrite (loop_raise (section_of cfg) pre m post (section_of cfg))
      by (done || apply prepared_section || by rewrite Hsw).
    by rewrite Hsw. }
  split; [apply lookup_insert_eq|].
  assert (Hm : register_all (filter (λ k, is_candidate k) pre) (section_of cfg) !! m
               = Some v) by by apply register_all_lookup_Some.
  rewrite register_present by eauto.
  split; [|split; [|split]].
  - intros k Hk Hck. apply register_all_lookup_in.
    apply list_elem_of_filter. split; [by rewrite Hck | done].
  - intros k Hk. apply register_all_lookup_notin.
    intros [_ ?]%list_elem_of_filter. done.
  - done.
  - intros k module. simpl. rewrite load_all_lookup, lookup_empty.
    by case_decide.
Qed.

Lemma filter_ext_in {X} (P Q : X → Prop) `{!∀ x, Decision (P x), !∀ x, Decision (Q x)}
    (l : list X) :
  (∀ x, x ∈ l → P x ↔ Q x) → filter P l = filter Q l.
Proof.
  induction l as [|x l IH]; intros Hext; [done|].
  rewrite !filter_cons, IH by (intros y Hy; apply Hext; by right).
  destruct (decide (P x)) as [HP|HP], (decide (Q x)) as [HQ|HQ]; try done.
  - destruct HQ. apply Hext; [left | done].
  - destruct HP. apply Hext; [left | done].
Qed.

Lemma omap_ext_in {X Y} (f g : X → option Y) (l : list X) :
  (∀ x, x ∈ l → f x = g x) → omap f l = omap g l.
Proof.
  induction l as [|x l IH]; intros Hext; [done|].
  rewrite !omap_cons_option_list, IH by (intros y Hy; apply Hext; by right).
  by rewrite (Hext x) by left.
Qed.

(** For a listed candidate, the answer of [getboolean] on the store after a
    full run is true exactly when its import is attempted. *)
Lemma attempted_getboolean cfg m :
  boolean_strings → switches_are_booleans cfg → m ∈ os_listdir →
  (is_candidate m = true
   ∧ LabConfig.getboolean parse_boolean
       (exp_config (after_loop (section_of cfg) (section_of cfg) os_listdir (prepared cfg)))
       PLUGINS_SECTION m = inr true)
  ↔ attempted (section_of cfg) m.
Proof.
  intros Hbs Hwf Hm. unfold Registry.attempted, Registry.activated.
  destruct (is_candidate m) eqn:Hc; [|by split; [intros [? _] | intros []]].
  destruct (switch_of_boolean cfg m Hbs Hwf Hm Hc) as [b Hb].
  rewrite (after_startup_getboolean cfg m b Hm Hc Hb), Hb.
  destruct b; simpl; split; try done.
  by intros [_ ?].
Qed.

(** X11. Plugins are imported in the order of the directory listing: after
    a full run the calls of [import_module] are, in listing order, those for
    the listed candidates whose switch in the store reads true, and the log
    holds, in the same order, one ERROR record for each of these imports
    that raised. *)
Theorem imports_in_listing_order cfg :
  boolean_strings → switches_are_booleans cfg →
  ∃ st',
    startup (initial_state cfg) = (inr (), st')
    ∧ import_calls st'
      = (dotted <$> filter
           (λ m, is_candidate m = true
                 ∧ LabConfig.getboolean parse_boolean (exp_config st') PLUGINS_SECTION m
                   = inr true) os_listdir)
    ∧ logger st'
      = omap (λ m,
           if decide (is_candidate m = true
                      ∧ LabConfig.getboolean parse_boolean (exp_config st')
                          PLUGINS_SECTION m = inr true)
           then match import_module (dotted m) with
                | inl e =>
                    Some (LogRecord "ERROR"
                            ("Could not import plugin '" +:+ m +:+ "'. Skipping.") e)
                | inr _ => None
                end
           else None) os_listdir.
Proof.
  intros Hbs Hwf. eexists. split; [by apply startup_run|].
  split.
  - transitivity (dotted <$> filter (λ m, attempted (section_of cfg) m) os_listdir);
      [done|].
    f_equal. apply filter_ext_in. intros m Hm.
    by rewrite attempted_getboolean.
  - transitivity (omap (import_failure (section_of cfg)) os_listdir); [done|].
    apply omap_ext_in. intros m Hm. unfold Registry.import_failure.
    pose proof (attempted_getboolean cfg m Hbs Hwf Hm) as Hiff.
    destruct (attempted (section_of cfg) m); case_decide as Hd; try done.
    + destruct Hd. by apply Hiff.
    + by apply Hiff in Hd.
Qed.

(** X12. On a store that has no plugin switches yet, discovery returns; it
    leaves in the section exactly the listed candidates, with True for
    connection_table, general and theme and False for the others, and it
    imports, in listing order, the listed candidates among those three and
    no other name. *)
Theorem startup_fresh_store cfg :
  boolean_strings → section_of cfg = ∅ →
  ∃ st' opts',
    startup (initial_state cfg) = (inr (), st')
    ∧ exp_config st' !! PLUGINS_SECTION = Some opts'
    ∧ (∀ k, opts' !! k
            = if bool_decide (k ∈ os_listdir ∧ is_candidate k = true)
              then Some (if bool_decide (k ∈ ["connection_table"; "general"; "theme"])
                         then "True" else "False")
              else None)
    ∧ import_calls st'
      = (dotted <$> filter
           (λ m, is_candidate m = true ∧ m ∈ ["connection_table"; "general"; "theme"])
           os_listdir).
Proof.
  intros Hbs Hempty.
  assert (Hwf : switches_are_booleans cfg).
  { intros m v _ _. by rewrite Hempty, lookup_empty. }
  eexists _, _. split; [by apply startup_run|].
  split; [apply after_startup_section|]. rewrite Hempty. split.
  - intros k. case_bool_decide as Hk.
    + destruct Hk as [Hin Hc]. rewrite register_all_lookup_in by by apply listed_candidate.
      unfold switch_of. by rewrite lookup_empty.
    + rewrite register_all_lookup_notin; [apply lookup_empty|].
      intros [Hc ?]%list_elem_of_filter. apply Hk. split; [done|].
      by apply Is_true_true.
  - simpl. f_equal. apply list_filter_iff. intros m.
    unfold Registry.attempted, Registry.activated, switch_of.
    rewrite lookup_empty. simpl. destruct Hbs as [HT HF].
    destruct (is_candidate m); simpl; [|by split; [|intros [? _]]].
    fold default_plugins.
    case_bool_decide as Hd; simpl; rewrite ?HT, ?HF; simpl; split; try done.
    + by intros [_ ?].
Qed.

(** X13. Discovery keeps the section a table of booleans: when every value
    stored in the section is a boolean, discovery returns and every value in
    the section is a boolean afterwards; the keys afterwards are the keys
    that were there and the listed candidates, and no others. *)
Theorem startup_keeps_booleans cfg :
  boolean_strings →
  (∀ k v, section_of cfg !! k = Some v → is_Some (parse_boolean v)) →
  ∃ st' opts',
    startup (initial_state cfg) = (inr (), st')
    ∧ exp_config st' !! PLUGINS_SECTION = Some opts'
    ∧ (∀ k v, opts' !! k = Some v → is_Some (parse_boolean v))
    ∧ (∀ k, is_Some (opts' !! k)
            ↔ is_Some (section_of cfg !! k) ∨ (k ∈ os_listdir ∧ is_candidate k = true)).
Proof.
  intros Hbs Hall.
  assert (Hwf : switches_are_booleans cfg) by (intros m v _ _; apply Hall).
  eexists _, _. split; [by apply startup_run|].
  split; [apply after_startup_section|].
  assert (Hlook : ∀ k,
            register_all (filter (λ m, is_candidate m) os_listdir) (section_of cfg) !! k
            = if decide (k ∈ os_listdir ∧ is_candidate k = true)
              then Some (switch_of (section_of cfg) k)
              else section_of cfg !! k).
  { intros k. case_decide as Hk.
    - destruct Hk. by apply register_all_lookup_in, listed_candidate.
    - apply register_all_lookup_notin. intros [Hc ?]%list_elem_of_filter.
      apply Hk. split; [done | by apply Is_true_true]. }
  split.
  - intros k v. rewrite Hlook. case_decide as Hk; [|apply Hall].
    intros [= <-]. destruct Hk. by apply switch_of_boolean.
  - intros k. rewrite Hlook. case_decide as Hk; [by split; eauto|].
    split; [by left | by intros [?|?]].
Qed.

(** What is attempted, loaded and logged depends on the section through the
    switches only. *)
Lemma attempted_ext opts1 opts2 m :
  (∀ k, switch_of opts1 k = switch_of opts2 k) → attempted opts1 m = attempted opts2 m.
Proof.
  intros Hsw. unfold Registry.attempted, Registry.activated. by rewrite Hsw.
Qed.

Lemma load_all_ext opts1 opts2 names : ∀ ms : gmap string PyModule,
  (∀ k, switch_of opts1 k = switch_of opts2 k) →
  load_all opts1 names ms = load_all opts2 names ms.
Proof.
  unfold Registry.load_all.
  induction names as [|m names IH]; intros ms Hsw; [done|].
  cbn [foldl].
  replace (loaded opts1 m) with (loaded opts2 m); [by apply IH|].
  unfold Registry.loaded. by rewrite (attempted_ext opts1 opts2 m Hsw).
Qed.

(** The store after a full run is again one on which discovery runs to its
    end. *)
Lemma after_startup_booleans cfg :
  boolean_strings → switches_are_booleans cfg →
  switches_are_booleans
    (exp_config (after_loop (section_of cfg) (section_of cfg) os_listdir (prepared cfg))).
Proof.
  intros Hbs Hwf m v Hm Hc. unfold section_of at 1.
  rewrite after_startup_section. simpl.
  rewrite register_all_lookup_in by by apply listed_candidate.
  intros [= <-]. by apply switch_of_boolean.
Qed.

(** X14. A restart reproduces the run: started again on the store the first
    run left behind, with the same directory and the same outcomes of the
    imports, discovery returns with the same store, makes the same imports
    in the same order, ends with the same [modules] and logs the same
    records. *)
Theorem restart_reproduces cfg :
  boolean_strings → switches_are_booleans cfg →
  ∃ st' st'',
    startup (initial_state cfg) = (inr (), st')
    ∧ startup (initial_state (exp_config st')) = (inr (), st'')
    ∧ exp_config st'' = exp_config st'
    ∧ modules st'' = modules st'
    ∧ import_calls st'' = import_calls st'
    ∧ logger st'' = logger st'.
Proof.
  intros Hbs Hwf. eexists _, _. split; [by apply startup_run|].
  split; [apply startup_run; [done | by apply after_startup_booleans]|].
  pose proof (after_startup_section cfg) as Hsec'.
  remember (exp_config (after_loop (section_of cfg) (section_of cfg) os_listdir
                          (prepared cfg))) as cfg' eqn:Hcfg'.
  assert (Hopts' : section_of cfg'
                   = register_all (filter (λ m, is_candidate m) os_listdir)
                       (section_of cfg)).
  { unfold section_of at 1. by rewrite Hsec'. }
  assert (Hsw : ∀ k, switch_of (section_of cfg') k = switch_of (section_of cfg) k).
  { intros k. by rewrite Hopts', switch_of_register_all. }
  split; [|split; [|split]].
  - simpl. rewrite insert_insert_eq, Hopts'.
    rewrite register_all_present.
    + by apply insert_id.
    + intros m Hm. rewrite register_all_lookup_in by done. eauto.
  - simpl. by apply load_all_ext.
  - simpl. f_equal. apply list_filter_iff. intros m.
    by rewrite (attempted_ext _ _ m Hsw).
  - simpl. apply omap_ext_in. intros m _. unfold Registry.import_failure.
    by rewrite (attempted_ext _ _ m Hsw).
Qed.
End RegistryFacts.

(** * Runs on concrete inputs *)

(** The scenario of the specification. *)
Example get_callbacks_save :
  (get_callbacks Demo.app "save" Demo.st0).1 = inr [Demo.cb_a; Demo.cb_b].
Proof. reflexivity. Qed.

Example get_callbacks_load :
  (get_callbacks Demo.app "load" Demo.st0).1 = inr [Demo.cb_c].
Proof. reflexivity. Qed.

Example get_callbacks_close :
  get_callbacks Demo.app "close" Demo.st0 = (inr [], Demo.st0).
Proof. reflexivity. Qed.

(** Priorities 20, 10 (default) and 3, a plugin that raises and one that
    returns [None]. *)
Example get_callbacks_app5 :
  get_callbacks Demo.app5 "load" Demo.st0
  = (inr [Demo.cb_bound; Demo.cb_plain; Demo.cb_late],
     logged [LogRecord "ERROR" "Error getting callbacks from broken."
               (Exception "RuntimeError" "boom")] Demo.st0).
Proof. reflexivity. Qed.

(** A bound [Callback] passes the instance first. *)
Example bound_call_passes_instance :
  call (Callback__get__ (Callback__init__
          (PyFunction (λ args _ w, (inr (foldr Z.add 0 args), w)) None) None)
          (Some 100) 0) [1; 2] [] tt
  = (inr 103, tt).
Proof. reflexivity. Qed.

(** Discovery on a store without a plugins section: the three default
    plugins are switched on, [experimental] is switched off, and only the
    first three are imported; the import of [theme] fails and is logged. *)
Example startup_fresh :
  let r := Registry.startup Demo.listing Demo.isdir Demo.import configparser_boolean
             (Registry.initial_state Demo.fresh_cfg) in
  r.1 = inr ()
  ∧ exp_config r.2 !! "BLACS/plugins"
    = Some (list_to_map [("connection_table", "True"); ("general", "True");
                         ("theme", "True"); ("experimental", "False")])
  ∧ exp_config r.2 !! "paths" = Demo.fresh_cfg !! "paths"
  ∧ import_calls r.2
    = ["blacs.plugins.connection_table"; "blacs.plugins.general"; "blacs.plugins.theme"]
  ∧ modules r.2
    = list_to_map [("connection_table", "blacs.plugins.connection_table");
                   ("general", "blacs.plugins.general")]
  ∧ logger r.2
    = [LogRecord "ERROR" "Could not import plugin 'theme'. Skipping."
         (ImportError "No module named qtutils")].
Proof. vm_compute. repeat split. Qed.

(** A stored switch that is not a boolean stops discovery with the store's
    error; what was registered before stays registered. *)
Example startup_bad_switch :
  let r := Registry.startup Demo.listing Demo.isdir Demo.import configparser_boolean
             (Registry.initial_state Demo.bad_cfg) in
  r.1 = inl (ValueError "Not a boolean: maybe")
  ∧ exp_config r.2 !! "BLACS/plugins"
    = Some (list_to_map [("connection_table", "True"); ("general", "maybe")])
  ∧ import_calls r.2 = ["blacs.plugins.connection_table"].
Proof. vm_compute. repeat split. Qed.

(** * The assumptions of the theorems hold on concrete inputs *)




Lemma get_callbacks_plugin_raises_witness :
  plugins Demo.app5
    = [("late", Demo.P_late)] ++ ("broken", Demo.P_broken)
        :: [("plain", Demo.P_plain); ("bound", Demo.P_bound); ("none", Demo.P_none)]
  ∧ plugin_get_callbacks Demo.P_broken = inl (Exception "RuntimeError" "boom")
  ∧ ∃ callbacks st',
      get_callbacks Demo.app5 "load" Demo.st0 = (inr callbacks, st')
      ∧ callbacks = [Demo.cb_bound; Demo.cb_plain; Demo.cb_late]
      ∧ LogRecord "ERROR" "Error getting callbacks from broken."
          (Exception "RuntimeError" "boom") ∈ logger st'.
Proof.
  split; [reflexivity|]. split; [reflexivity|].
  destruct (get_callbacks_plugin_raises Demo.app5 "load" Demo.st0
              [("late", Demo.P_late)]
              [("plain", Demo.P_plain); ("bound", Demo.P_bound); ("none", Demo.P_none)]
              "broken" Demo.P_broken (Exception "RuntimeError" "boom")
              eq_refl eq_refl)
    as (cbs & st' & Hrun & Hwithout & _ & _ & _ & Hlog).
  exists cbs, st'. split; [exact Hrun|]. split; [|exact Hlog].
  vm_compute in Hwithout. by injection Hwithout as <-.
Defined.


(** Python's [getboolean] reads back what [str] writes for a boolean. *)
Lemma configparser_boolean_strings : Registry.boolean_strings configparser_boolean.
Proof. split; reflexivity. Defined.

(** In [Demo.cfg] the one stored switch, [off], is a boolean. *)
Lemma demo_switches_are_booleans :
  Registry.switches_are_booleans Demo.listing Demo.isdir configparser_boolean Demo.cfg.
Proof.
  intros m v Hm _ Hv. vm_compute in Hm.
  repeat (apply elem_of_cons in Hm as [->|Hm]); [..|by apply elem_of_nil in Hm].
  all: vm_compute in Hv; try discriminate Hv.
  injection Hv as <-. by exists false.
Defined.

Lemma discovery_registers_new_modules_witness :
  Registry.boolean_strings configparser_boolean
  ∧ Registry.switches_are_booleans Demo.listing Demo.isdir configparser_boolean Demo.cfg
  ∧ ∃ st' opts',
      Registry.startup Demo.listing Demo.isdir Demo.import configparser_boolean
        (Registry.initial_state Demo.cfg) = (inr (), st')
      ∧ exp_config st' !! PLUGINS_SECTION = Some opts'
      ∧ opts' !! "theme" = Some "True"
      ∧ opts' !! "experimental" = Some "False"
      ∧ opts' !! "general" = Some "off"
      ∧ NoDup (omap written_option (config_calls st')).
Proof.
  split; [exact configparser_boolean_strings|].
  split; [exact demo_switches_are_booleans|].
  destruct (discovery_registers_new_modules Demo.listing Demo.isdir Demo.import
              configparser_boolean Demo.cfg
              configparser_boolean_strings demo_switches_are_booleans)
    as (st' & opts' & Hrun & Hsec & Hnew & _ & Hnd & Hold & _).
  exists st', opts'. split; [exact Hrun|]. split; [exact Hsec|].
  split; [|split; [|split; [|exact Hnd]]].
  - apply (Hnew "theme"); [by apply (bool_decide_unpack _) | reflexivity | reflexivity].
  - apply (Hnew "experimental"); [by apply (bool_decide_unpack _) | reflexivity | reflexivity].
  - apply Hold. reflexivity.
Defined.

Lemma discovery_imports_enabled_modules_witness :
  Registry.boolean_strings configparser_boolean
  ∧ Registry.switches_are_booleans Demo.listing Demo.isdir configparser_boolean Demo.cfg
  ∧ ∃ st',
      Registry.startup Demo.listing Demo.isdir Demo.import configparser_boolean
        (Registry.initial_state Demo.cfg) = (inr (), st')
      ∧ LabConfig.getboolean configparser_boolean (exp_config st') PLUGINS_SECTION
          "connection_table" = inr true
      ∧ Registry.dotted "connection_table" ∈ import_calls st'
      ∧ modules st' !! "connection_table" = Some "blacs.plugins.connection_table"
      ∧ LabConfig.getboolean configparser_boolean (exp_config st') PLUGINS_SECTION
          "theme" = inr true
      ∧ Registry.dotted "theme" ∈ import_calls st'
      ∧ LogRecord "ERROR" "Could not import plugin 'theme'. Skipping."
          (ImportError "No module named qtutils") ∈ logger st'
      ∧ modules st' !! "theme" = None
      ∧ LabConfig.getboolean configparser_boolean (exp_config st') PLUGINS_SECTION
          "general" = inr false
      ∧ (Registry.dotted "general" ∉ import_calls st')
      ∧ modules st' !! "general" = None
      ∧ modules st' !! "README.md" = None
      ∧ (Registry.dotted "__pycache__" ∉ import_calls st').
Proof.
  split; [exact configparser_boolean_strings|].
  split; [exact demo_switches_are_booleans|].
  destruct (discovery_imports_enabled_modules Demo.listing Demo.isdir Demo.import
              configparser_boolean Demo.cfg
              configparser_boolean_strings demo_switches_are_booleans)
    as (st' & Hrun & Hcand & Hother).
  exists st'. split; [exact Hrun|].
  assert (Hcfg : ∀ m, LabConfig.getboolean configparser_boolean (exp_config st')
                        PLUGINS_SECTION m
                      = LabConfig.getboolean configparser_boolean
                          (exp_config (Registry.startup Demo.listing Demo.isdir Demo.import
                                         configparser_boolean
                                         (Registry.initial_state Demo.cfg)).2)
                          PLUGINS_SECTION m).
  { intros m. by rewrite Hrun. }
  destruct (Hcand "connection_table") as (b1 & Hb1 & Himp1 & Hmod1 & _);
    [by apply (bool_decide_unpack _) | reflexivity |].
  rewrite Hcfg in Hb1. vm_compute in Hb1. injection Hb1 as <-.
  destruct (Hcand "theme") as (b2 & Hb2 & Himp2 & _ & Hfail2);
    [by apply (bool_decide_unpack _) | reflexivity |].
  rewrite Hcfg in Hb2. vm_compute in Hb2. injection Hb2 as <-.
  destruct (Hcand "general") as (b3 & Hb3 & Himp3 & Hmod3 & _);
    [by apply (bool_decide_unpack _) | reflexivity |].
  rewrite Hcfg in Hb3. vm_compute in Hb3. injection Hb3 as <-.
  destruct (Hfail2 (ImportError "No module named qtutils") eq_refl eq_refl)
    as [Hlog2 Hmod2].
  split; [by rewrite Hcfg|]. split; [by apply Himp1|].
  split; [apply Hmod1; split; [reflexivity | vm_compute; reflexivity]|].
  split; [by rewrite Hcfg|]. split; [by apply Himp2|].
  split; [exact Hlog2|]. split; [exact Hmod2|].
  split; [by rewrite Hcfg|].
  split; [intros Hin; by apply Himp3 in Hin|].
  split.
  { destruct (modules st' !! "general") as [module|] eqn:Hm; [|done].
    by destruct (proj1 (Hmod3 module) eq_refl) as [? _]. }
  split.
  - apply (Hother "README.md"). by intros [_ ?].
  - apply (Hother "__pycache__"). by intros [_ ?].
Defined.

Lemma config_store_frame_witness :
  "paths" ≠ PLUGINS_SECTION
  ∧ Registry.section_of Demo.bad_cfg !! "general" = Some "maybe"
  ∧ exp_config (Registry.startup Demo.listing Demo.isdir Demo.import configparser_boolean
                  (Registry.initial_state Demo.bad_cfg)).2 !! "paths"
    = Demo.bad_cfg !! "paths"
  ∧ ∃ opts',
      exp_config (Registry.startup Demo.listing Demo.isdir Demo.import configparser_boolean
                    (Registry.initial_state Demo.bad_cfg)).2 !! PLUGINS_SECTION = Some opts'
      ∧ opts' !! "general" = Some "maybe".
Proof.
  assert (Hne : "paths" ≠ PLUGINS_SECTION) by discriminate.
  assert (Hold : Registry.section_of Demo.bad_cfg !! "general" = Some "maybe")
    by reflexivity.
  destruct (config_store_frame (value := Z) (World := ()) Demo.listing Demo.isdir
              Demo.import configparser_boolean Demo.bad_cfg)
    as (Hframe & _ & Hkeep & _).
  split; [exact Hne|]. split; [exact Hold|].
  split; [exact (Hframe "paths" Hne) | exact (Hkeep "general" "maybe" Hold)].
Defined.

Lemma get_callbacks_order_independent_witness :
  plugins Demo.app5 ≡ₚ plugins DemoMore.app5_rev
  ∧ NoDup (priority_key <$> entries_for "load" (plugins_values Demo.app5))
  ∧ (get_callbacks Demo.app5 "load" Demo.st0).1
    = (get_callbacks DemoMore.app5_rev "load" Demo.st0).1.
Proof.
  assert (Hperm : plugins Demo.app5 ≡ₚ plugins DemoMore.app5_rev).
  { change (plugins DemoMore.app5_rev) with (reverse (plugins Demo.app5)).
    by rewrite reverse_Permutation. }
  assert (Hnd : NoDup (priority_key <$> entries_for "load" (plugins_values Demo.app5))).
  { apply (bool_decide_unpack _). vm_compute. exact I. }
  split; [exact Hperm|]. split; [exact Hnd|].
  exact (get_callbacks_order_independent Demo.app5 DemoMore.app5_rev "load"
           Demo.st0 Demo.st0 Hperm Hnd).
Defined.

(** In [DemoMore.app5_objects] every [__str__] returns. *)
Lemma app5_objects_str :
  ∀ (k : string) (o : plugin_object Z ()) (e : exn),
    (k, o) ∈ DemoMore.app5_objects → object_get_callbacks o = inl e →
    ∃ s, object_str o = inr s.
Proof.
  intros k o e Hin _. vm_compute in Hin.
  repeat (apply elem_of_cons in Hin as [[= -> ->]|Hin]);
    [..|by apply elem_of_nil in Hin]; eexists; reflexivity.
Defined.

Lemma get_callbacks_sorted_permutation_witness :
  (∀ (k : string) (o : plugin_object Z ()) (e : exn),
     (k, o) ∈ DemoMore.app5_objects → object_get_callbacks o = inl e →
     ∃ s, object_str o = inr s)
  ∧ ∃ callbacks (st' : module_state string),
      get_callbacks_any DemoMore.app5_objects "load" Demo.st0 = (inr callbacks, st')
      ∧ callbacks = [Demo.cb_bound; Demo.cb_plain; Demo.cb_late]
      ∧ priority_of <$> callbacks = [3; 10; 20]
      ∧ StronglySorted Z.le (priority_of <$> callbacks).
Proof.
  split; [exact app5_objects_str|].
  destruct (get_callbacks_sorted_permutation DemoMore.app5_objects "load" Demo.st0
              app5_objects_str)
    as (callbacks & st' & Hrun & _ & _ & Hsorted).
  exists callbacks, st'. split; [exact Hrun|].
  assert (Hcbs : callbacks = [Demo.cb_bound; Demo.cb_plain; Demo.cb_late]).
  { vm_compute in Hrun. by injection Hrun as <- _. }
  split; [exact Hcbs|]. split; [by rewrite Hcbs | exact Hsorted].
Defined.

Lemma get_callbacks_logging_witness :
  (∀ (k : string) (o : plugin_object Z ()) (e : exn),
     (k, o) ∈ DemoMore.app5_objects → object_get_callbacks o = inl e →
     ∃ s, object_str o = inr s)
  ∧ logger (get_callbacks_any DemoMore.app5_objects "load" Demo.st0).2
    = [LogRecord "ERROR" "Error getting callbacks from broken."
         (Exception "RuntimeError" "boom")].
Proof.
  split; [exact app5_objects_str|].
  destruct (get_callbacks_logging DemoMore.app5_objects "load" Demo.st0 app5_objects_str)
    as (Hlog & _ & _).
  rewrite Hlog. reflexivity.
Defined.

Lemma BasePlugin_registers_nothing_witness :
  (∀ p, p ∈ plugins_values DemoMore.base_app →
        ∃ (self' : BasePlugin.t (Settings := Z) (Menu := ()) (Notifications := ())
                     (Host := ())) s',
          p = BasePlugin.as_plugin self' s')
  ∧ get_callbacks DemoMore.base_app "save" Demo.st0 = (inr [], Demo.st0).
Proof.
  assert (H : ∀ p, p ∈ plugins_values DemoMore.base_app →
                ∃ (self' : BasePlugin.t (Settings := Z) (Menu := ()) (Notifications := ())
                             (Host := ())) s',
                  p = BasePlugin.as_plugin self' s').
  { intros p Hp. vm_compute in Hp.
    apply elem_of_cons in Hp as [->|Hp]; [|apply list_elem_of_singleton in Hp as ->].
    - by exists DemoMore.base, "a".
    - by exists DemoMore.base, "b". }
  split; [exact H|].
  destruct (BasePlugin_registers_nothing (PyModule := string) DemoMore.base "a" "a" [] []
              DemoMore.base_app "save" Demo.st0) as [_ Hall].
  exact (Hall H).
Defined.

Lemma startup_outcome_witness :
  Registry.boolean_strings configparser_boolean
  ∧ (Registry.startup Demo.listing Demo.isdir Demo.import configparser_boolean
       (Registry.initial_state Demo.cfg)).1 = inr ()
  ∧ ∃ m v, m ∈ Demo.listing ∧ Registry.section_of Demo.bad_cfg !! m = Some v
           ∧ configparser_boolean v = None.
Proof.
  split; [exact configparser_boolean_strings|].
  destruct (startup_outcome Demo.listing Demo.isdir Demo.import configparser_boolean
              Demo.cfg configparser_boolean_strings) as [Hret _].
  split; [exact (proj2 Hret demo_switches_are_booleans)|].
  destruct (startup_outcome Demo.listing Demo.isdir Demo.import configparser_boolean
              Demo.bad_cfg configparser_boolean_strings) as [_ Hraise].
  destruct (Hraise (ValueError "Not a boolean: maybe") eq_refl)
    as (m & v & Hm & _ & Hv & Hbad & _).
  exists m, v. split; [exact Hm|]. split; [exact Hv | exact Hbad].
Defined.

Lemma startup_stops_at_bad_switch_witness :
  Registry.boolean_strings configparser_boolean
  ∧ Demo.listing
    = ["connection_table"] ++ "general"
        :: ["theme"; "experimental"; "__pycache__"; "README.md"]
  ∧ Registry.section_of Demo.bad_cfg !! "general" = Some "maybe"
  ∧ configparser_boolean "maybe" = None
  ∧ ∃ st' opts',
      Registry.startup Demo.listing Demo.isdir Demo.import configparser_boolean
        (Registry.initial_state Demo.bad_cfg)
      = (inl (ValueError "Not a boolean: maybe"), st')
      ∧ exp_config st' !! PLUGINS_SECTION = Some opts'
      ∧ opts' !! "connection_table" = Some "True"
      ∧ opts' !! "theme" = None.
Proof.
  split; [exact configparser_boolean_strings|].
  split; [reflexivity|]. split; [reflexivity|]. split; [reflexivity|].
  destruct (startup_stops_at_bad_switch Demo.listing Demo.isdir Demo.import
              configparser_boolean Demo.bad_cfg
              ["connection_table"] "general"
              ["theme"; "experimental"; "__pycache__"; "README.md"] "maybe"
              configparser_boolean_strings eq_refl)
    as (st' & opts' & Hrun & Hsec & Hpre & Hpost & _); try reflexivity.
  { intros k u Hk _ Hu. apply list_elem_of_singleton in Hk as ->.
    vm_compute in Hu. discriminate Hu. }
  exists st', opts'. split; [exact Hrun|]. split; [exact Hsec|]. split.
  - apply (Hpre "connection_table"); [apply list_elem_of_singleton|]; reflexivity.
  - rewrite (Hpost "theme"); [reflexivity|].
    intros Hin. apply list_elem_of_singleton in Hin. discriminate Hin.
Defined.

Lemma imports_in_listing_order_witness :
  Registry.boolean_strings configparser_boolean
  ∧ Registry.switches_are_booleans Demo.listing Demo.isdir configparser_boolean Demo.cfg
  ∧ ∃ st',
      Registry.startup Demo.listing Demo.isdir Demo.import configparser_boolean
        (Registry.initial_state Demo.cfg) = (inr (), st')
      ∧ import_calls st' = ["blacs.plugins.connection_table"; "blacs.plugins.theme"].
Proof.
  split; [exact configparser_boolean_strings|].
  split; [exact demo_switches_are_booleans|].
  destruct (imports_in_listing_order Demo.listing Demo.isdir Demo.import
              configparser_boolean Demo.cfg
              configparser_boolean_strings demo_switches_are_booleans)
    as (st' & Hrun & _).
  exists st'. split; [exact Hrun|].
  vm_compute in Hrun. by injection Hrun as <-.
Defined.

Lemma startup_fresh_store_witness :
  Registry.boolean_strings configparser_boolean
  ∧ Registry.section_of Demo.fresh_cfg = ∅
  ∧ ∃ st' opts',
      Registry.startup Demo.listing Demo.isdir Demo.import configparser_boolean
        (Registry.initial_state Demo.fresh_cfg) = (inr (), st')
      ∧ exp_config st' !! PLUGINS_SECTION = Some opts'
      ∧ opts' !! "experimental" = Some "False"
      ∧ opts' !! "README.md" = None
      ∧ import_calls st'
        = ["blacs.plugins.connection_table"; "blacs.plugins.general";
           "blacs.plugins.theme"].
Proof.
  split; [exact configparser_boolean_strings|]. split; [reflexivity|].
  destruct (startup_fresh_store Demo.listing Demo.isdir Demo.import
              configparser_boolean Demo.fresh_cfg
              configparser_boolean_strings eq_refl)
    as (st' & opts' & Hrun & Hsec & Hkeys & Himp).
  exists st', opts'. split; [exact Hrun|]. split; [exact Hsec|].
  split; [by rewrite Hkeys|]. split; [by rewrite Hkeys|]. by rewrite Himp.
Defined.

(** In [DemoMore.cfg] both stored switches are booleans. *)
Lemma demo_all_booleans :
  ∀ k v, Registry.section_of DemoMore.cfg !! k = Some v → is_Some (configparser_boolean v).
Proof.
  intros k v.
  change (Registry.section_of DemoMore.cfg)
    with (<["retired" := "yes"]> ({[ "general" := "off" ]} : gmap string string)).
  intros [[_ <-]|[_ [_ <-]%lookup_singleton_Some]]%lookup_insert_Some.
  - by exists true.
  - by exists false.
Defined.

Lemma startup_keeps_booleans_witness :
  Registry.boolean_strings configparser_boolean
  ∧ (∀ k v, Registry.section_of DemoMore.cfg !! k = Some v →
            is_Some (configparser_boolean v))
  ∧ ∃ st' opts',
      Registry.startup Demo.listing Demo.isdir Demo.import configparser_boolean
        (Registry.initial_state DemoMore.cfg) = (inr (), st')
      ∧ exp_config st' !! PLUGINS_SECTION = Some opts'
      ∧ is_Some (opts' !! "retired")
      ∧ is_Some (opts' !! "experimental").
Proof.
  split; [exact configparser_boolean_strings|]. split; [exact demo_all_booleans|].
  destruct (startup_keeps_booleans Demo.listing Demo.isdir Demo.import
              configparser_boolean DemoMore.cfg
              configparser_boolean_strings demo_all_booleans)
    as (st' & opts' & Hrun & Hsec & _ & Hkeys).
  exists st', opts'. split; [exact Hrun|]. split; [exact Hsec|]. split.
  - apply Hkeys. left. by exists "yes".
  - apply Hkeys. right. split; [by apply (bool_decide_unpack _) | reflexivity].
Defined.

Lemma restart_reproduces_witness :
  Registry.boolean_strings configparser_boolean
  ∧ Registry.switches_are_booleans Demo.listing Demo.isdir configparser_boolean Demo.cfg
  ∧ ∃ st' st'',
      Registry.startup Demo.listing Demo.isdir Demo.import configparser_boolean
        (Registry.initial_state Demo.cfg) = (inr (), st')
      ∧ Registry.startup Demo.listing Demo.isdir Demo.import configparser_boolean
          (Registry.initial_state (exp_config st')) = (inr (), st'')
      ∧ modules st'' = modules st'
      ∧ import_calls st'' = import_calls st'.
Proof.
  split; [exact configparser_boolean_strings|].
  split; [exact demo_switches_are_booleans|].
  destruct (restart_reproduces Demo.listing Demo.isdir Demo.import
              configparser_boolean Demo.cfg
              configparser_boolean_strings demo_switches_are_booleans)
    as (st' & st'' & Hrun & Hrun' & _ & Hmods & Himp & _).
  exists st', st''. split; [exact Hrun|]. split; [exact Hrun'|].
  split; [exact Hmods | exact Himp].
Defined.

Lemma startup_no_candidates_witness :
  (∀ m, m ∈ DemoMore.no_plugins → Registry.is_candidate Demo.isdir m = false)
  ∧ ∃ st',
      Registry.startup DemoMore.no_plugins Demo.isdir Demo.import configparser_boolean
        (Registry.initial_state Demo.fresh_cfg) = (inr (), st')
      ∧ config_calls st'
        = [CallHasSection PLUGINS_SECTION; CallAddSection PLUGINS_SECTION]
      ∧ modules st' = ∅.
Proof.
  assert (H : ∀ m, m ∈ DemoMore.no_plugins → Registry.is_candidate Demo.isdir m = false).
  { intros m Hm. vm_compute in Hm.
    apply elem_of_cons in Hm as [->|Hm]; [|apply list_elem_of_singleton in Hm as ->].
    all: reflexivity. }
  split; [exact H|].
  destruct (startup_no_candidates DemoMore.no_plugins Demo.isdir Demo.import
              configparser_boolean Demo.fresh_cfg H)
    as (st' & Hrun & _ & Hcalls & Hmods & _).
  exists st'. split; [exact Hrun|]. split; [exact Hcalls | exact Hmods].
Defined.

(** * Inputs on which a statement without its condition fails *)

(** C7, without the condition on the stored switches. In [Demo.bad_cfg] the
    switch of [general] is not a boolean. [theme] is a listed candidate and
    not a key of the section, and yet discovery does not write it: it raises
    at [general], after the one write for [connection_table]. *)
Lemma discovery_registers_counterexample :
  let r := Registry.startup Demo.listing Demo.isdir Demo.import configparser_boolean
             (Registry.initial_state Demo.bad_cfg) in
  "theme" ∈ Demo.listing
  ∧ Registry.is_candidate Demo.isdir "theme" = true
  ∧ Registry.section_of Demo.bad_cfg !! "theme" = None
  ∧ r.1 = inl (ValueError "Not a boolean: maybe")
  ∧ exp_config r.2 !! PLUGINS_SECTION
    = Some (list_to_map [("connection_table", "True"); ("general", "maybe")])
  ∧ omap written_option (config_calls r.2) = ["connection_table"].
Proof.
  split; [by apply (bool_decide_unpack _)|].
  split; [reflexivity|]. split; [reflexivity|].
  split; [vm_compute; reflexivity|].
  split; vm_compute; reflexivity.
Qed.

(** C8, without the condition on the stored switches. In
    [DemoMore.bad_cfg_on] the switch of [experimental] is stored as True and
    its import would return, and yet it is not imported and is not a key of
    [modules]: discovery raises at [general], which is listed before it. *)
Lemma discovery_imports_counterexample :
  let r := Registry.startup Demo.listing Demo.isdir Demo.import configparser_boolean
             (Registry.initial_state DemoMore.bad_cfg_on) in
  "experimental" ∈ Demo.listing
  ∧ Registry.is_candidate Demo.isdir "experimental" = true
  ∧ LabConfig.getboolean configparser_boolean (exp_config r.2) PLUGINS_SECTION
      "experimental" = inr true
  ∧ Demo.import (Registry.dotted "experimental") = inr "blacs.plugins.experimental"
  ∧ r.1 = inl (ValueError "Not a boolean: maybe")
  ∧ import_calls r.2 = ["blacs.plugins.connection_table"]
  ∧ modules r.2 !! "experimental" = None.
Proof.
  split; [by apply (bool_decide_unpack _)|].
  split; [reflexivity|].
  split; [vm_compute; reflexivity|]. split; [vm_compute; reflexivity|].
  split; [vm_compute; reflexivity|]. split; vm_compute; reflexivity.
Qed.

(** C9, for a store that is changed although no module is registered. With
    a store that has no [BLACS/plugins] section and a directory without
    candidates, the store gains the section: [add_section] is the one call
    that changes it, and there is no [set]. *)
Lemma config_store_counterexample :
  let r := Registry.startup DemoMore.no_plugins Demo.isdir Demo.import
             configparser_boolean (Registry.initial_state Demo.fresh_cfg) in
  r.1 = inr ()
  ∧ Demo.fresh_cfg !! PLUGINS_SECTION = None
  ∧ exp_config r.2 !! PLUGINS_SECTION = Some ∅
  ∧ exp_config r.2 ≠ Demo.fresh_cfg
  ∧ config_calls r.2 = [CallHasSection PLUGINS_SECTION; CallAddSection PLUGINS_SECTION]
  ∧ omap written_option (config_calls r.2) = [].
Proof.
  split; [vm_compute; reflexivity|]. split; [reflexivity|].
  split; [vm_compute; reflexivity|].
  split; [|split; vm_compute; reflexivity].
  intros Heq.
  assert (Hsec : exp_config
                   (Registry.startup DemoMore.no_plugins Demo.isdir Demo.import
                      configparser_boolean
                      (Registry.initial_state (PyModule := string) Demo.fresh_cfg)).2
                 !! PLUGINS_SECTION = Demo.fresh_cfg !! PLUGINS_SECTION)
    by by rewrite Heq.
  vm_compute in Hsec. discriminate Hsec.
Qed.
